(** * Tailscale: disco ping purposes (magicsock) and the c2n handler (ipnlocal)

    A shallow embedding of the two Go files of the repository:

    - the [stringer] output for [discoPingPurpose] (package magicsock);
    - [ipn/ipnlocal/c2n.go]: [handleC2N], [handleC2NUpdate] and
      [findCmdTailscale].

    Go integers are [Z] with the conversions written out, Go strings are
    [string], byte slices are [list Byte.byte], Go maps are [gmap]s.  A run-time
    panic (index or slice out of range) is an explicit outcome of the
    computation, and package-level variables live in an explicit store. *)

From Stdlib Require Import ZArith String Ascii List Lia DecimalString.
From Stdlib Require Strings.Byte DecimalZ DecimalPos.
From stdpp Require Import base option gmap strings list.

Open Scope Z_scope.

(** ** The pieces of the Go language and of its library that the code uses *)

Module Go.

(** [int64(x)]: conversion to a signed 64-bit integer wraps around. *)
Definition int64 (x : Z) : Z := (x + 2 ^ 63) mod 2 ^ 64 - 2 ^ 63.

(** The values of Go's [int] (64-bit targets); [discoPingPurpose] has [int]
    as its underlying type. *)
Definition is_int (x : Z) : Prop := - 2 ^ 63 <= x < 2 ^ 63.

(** [strconv.FormatInt(i, 10)]: the decimal digits, with a leading minus
    sign for a negative number. *)
Definition FormatInt10 (i : Z) : string := NilZero.string_of_int (Z.to_int i).

(** [len(s)] of a string. *)
Definition len_string (s : string) : Z := Z.of_nat (String.length s).

(** [a[i]]: indexing panics (here [None]) unless [0 <= i < len(a)]. *)
Definition index {A} (a : list A) (i : Z) : option A :=
  if 0 <=? i then a !! Z.to_nat i else None.

(** [s[lo:hi]]: slicing panics unless [0 <= lo <= hi <= len(s)]. *)
Definition slice (s : string) (lo hi : Z) : option string :=
  if (0 <=? lo) && (lo <=? hi) && (hi <=? len_string s)
  then Some (substring (Z.to_nat lo) (Z.to_nat (hi - lo)) s)
  else None.

(** A constant index expression [x[k]] into an array of length [n] is
    accepted by the compiler only when [0 <= k < n]. *)
Definition const_index_ok (n k : Z) : bool := (0 <=? k) && (k <? n).

(** Computations over a store [S] of package-level variables that either
    return a value or panic. *)
Definition M (S A : Type) : Type := S -> option A * S.

#[global] Instance M_ret {S} : MRet (M S) := fun A a s => (Some a, s).

#[global] Instance M_bind {S} : MBind (M S) := fun A B k c s =>
  match c s with
  | (Some a, s') => k a s'
  | (None, s') => (None, s')
  end.

(** Reading a package-level variable. *)
Definition read {S A} (proj : S -> A) : M S A := fun s => (Some (proj s), s).

(** An operation of the run time that panics on [None]. *)
Definition check {S A} (o : option A) : M S A := fun s => (o, s).

End Go.

(** ** Package magicsock: the generated [String] method of [discoPingPurpose] *)

Module Magicsock.
Import Go.

(** The body of [func _()]: three constant index expressions into
    [var x [1]struct{}]; the file compiles only when all three are in
    range. *)
Definition stringer_check (pingDiscovery pingHeartbeat pingCLI : Z) : bool :=
  const_index_ok 1 (pingDiscovery - 0)
  && const_index_ok 1 (pingHeartbeat - 1)
  && const_index_ok 1 (pingCLI - 2).

(** Modelled from the spec: the constants are declared next to the type,
    outside the sources; section 6 gives their values, the only ones that
    [stringer_check] accepts. *)
Definition pingDiscovery : Z := 0.
Definition pingHeartbeat : Z := 1.
Definition pingCLI : Z := 2.

Definition _discoPingPurpose_name : string := "DiscoveryHeartbeatCLI".

(** The package-level variables of the file. [_discoPingPurpose_index] is a
    [var] of type [[4]uint8]. *)
Record Globals := { _discoPingPurpose_index : list Z }.

Definition init : Globals := {| _discoPingPurpose_index := [0; 9; 18; 21] |}.

(** [len(_discoPingPurpose_index)] is a constant of the array type. *)
Definition len_index : Z := 4.

(** [func (i discoPingPurpose) String() string] *)
Definition discoPingPurpose_String (i : Z) : M Globals string :=
  if (i <? 0) || (i >=? len_index - 1) then
    mret ("discoPingPurpose(" +:+ FormatInt10 (int64 i) +:+ ")")
  else
    tbl ← read _discoPingPurpose_index;
    lo ← check (index tbl i);
    hi ← check (index tbl (i + 1));
    check (slice _discoPingPurpose_name lo hi).

(** The three names of the enumeration. *)
Definition valid_names : list string := ["Discovery"; "Heartbeat"; "CLI"].

End Magicsock.

(** ** The parts of [io], [net/http] and [errors] that c2n.go uses *)

Module Http.

Definition bytes : Type := list Byte.byte.

(** A Go [error] is represented by its message; a call returning
    [(T, error)] by a [result]. *)
Inductive result (A : Type) : Type :=
| Ok (a : A)
| Fail (msg : string).
Arguments Ok {A} a.
Arguments Fail {A} msg.

(** The newline that [fmt.Fprintln] and the format strings append. *)
Definition nl : string := String (ascii_of_nat 10) EmptyString.

(** An [io.Reader], as the bytes that its successive [Read] calls deliver
    and the way it ends: [None] for [io.EOF], or an error. *)
Record Reader := { chunks : list bytes; fails : option string }.

(** [io.ReadAll]: the data read until EOF or an error, and that error
    ([nil] at EOF). *)
Definition ReadAll (r : Reader) : bytes * option string :=
  (concat (chunks r), fails r).

(** The fields and methods of [*http.Request] that the handler looks at. *)
Record Request := {
  Method : string;
  URL_Path : string;
  Body : Reader;
  FormValue : string -> string
}.

(** What has been written to the response: raw bytes, formatted text, or
    the JSON encoding of a value of type [J]. *)
Inductive Chunk (J : Type) : Type :=
| Bytes (b : bytes)
| Text (s : string)
| JSON (v : J).
Arguments Bytes {J} b.
Arguments Text {J} s.
Arguments JSON {J} v.

(** An [http.ResponseWriter]: the header map, the status code once the
    header has been sent, and the body written so far. *)
Record ResponseWriter (J : Type) := {
  Header : gmap string string;
  Status : option Z;
  Written : list (Chunk J)
}.
Arguments Header {J} _.
Arguments Status {J} _.
Arguments Written {J} _.

Definition StatusBadRequest : Z := 400.
Definition StatusMethodNotAllowed : Z := 405.
Definition StatusInternalServerError : Z := 500.
Definition StatusNotImplemented : Z := 501.
Definition StatusNoContent : Z := 204.
Definition StatusOK : Z := 200.

Definition new_writer {J} : ResponseWriter J :=
  {| Header := ∅; Status := None; Written := [] |}.

(** [w.Header().Set(k, v)] *)
Definition Header_Set {J} (k v : string) (w : ResponseWriter J)
  : ResponseWriter J :=
  {| Header := <[k := v]> (Header w); Status := Status w;
     Written := Written w |}.

(** [w.WriteHeader(code)]: only the first call sends a status. *)
Definition WriteHeader {J} (code : Z) (w : ResponseWriter J)
  : ResponseWriter J :=
  {| Header := Header w;
     Status := match Status w with Some c => Some c | None => Some code end;
     Written := Written w |}.

(** [w.Write(..)]: sends the header with status 200 if none was sent. *)
Definition Write {J} (c : Chunk J) (w : ResponseWriter J)
  : ResponseWriter J :=
  let w' := WriteHeader StatusOK w in
  {| Header := Header w'; Status := Status w';
     Written := Written w' ++ [c] |}.

(** [http.Error(w, error, code)] *)
Definition Error {J} (w : ResponseWriter J) (error : string) (code : Z)
  : ResponseWriter J :=
  let w := Header_Set "Content-Type" "text/plain; charset=utf-8" w in
  let w := Header_Set "X-Content-Type-Options" "nosniff" w in
  let w := WriteHeader code w in
  Write (Text (error +:+ nl)) w.

End Http.

(** ** Package ipnlocal: c2n.go *)

Module Ipnlocal.
Import Http.

(** [tailcfg.C2NUpdateResponse], with the fields that the handler sets. *)
Record C2NUpdateResponse := {
  Enabled : bool;
  Supported : bool;
  Started : bool;
  Err : string
}.

Definition set_Err (msg : string) (res : C2NUpdateResponse) :=
  {| Enabled := Enabled res; Supported := Supported res;
     Started := Started res; Err := msg |}.

Definition set_Started (res : C2NUpdateResponse) :=
  {| Enabled := Enabled res; Supported := Supported res;
     Started := true; Err := Err res |}.

(** The processes that the handler runs through [os/exec]:
    [exec.Command(..).Output()] and a successful [cmd.Start()]. *)
Inductive Exec : Type :=
| Exec_Output (name : string) (args : list string)
| Exec_Start (name : string) (args : list string).

(** [time.Second], in nanoseconds. *)
Definition Second : Z := 1000000000.

(** The cases of the [switch r.URL.Path], in source order. *)
Definition c2n_paths : list string :=
  ["/echo"; "/update"; "/logtail/flush"; "/debug/goroutines";
   "/debug/prefs"; "/debug/metrics"; "/debug/component-logging";
   "/debug/logheap"; "/ssh/usernames"; "/sockstats"].

Section Handler.
(** [B] is the state behind [b *LocalBackend]; the other three are data
    types of [ipn] and [tailcfg] that the handler only passes along. *)
Context {B PrefsView SSHReq SSHResp : Type}.

(** The values handed to [json.NewEncoder(w).Encode]. *)
Inductive Encoded : Type :=
| EncPrefs (p : PrefsView)
| EncUpdate (res : C2NUpdateResponse)
| EncComponentLogging (Error : string)
| EncSSHUsernames (res : SSHResp).

Definition W : Type := ResponseWriter Encoded.

(** Everything that c2n.go calls and that is defined elsewhere: methods
    and fields of [LocalBackend] (state passing over [B] where they may
    change it), package-level functions, and the operating system. *)
Record Externals := {
  TryFlushLogs : B -> bool * B;
  Prefs : B -> PrefsView;
  clock_Now : B -> Z;
  SetComponentDebugLogging : string -> Z -> B -> option string * B;
  getSSHUsernames : SSHReq -> B -> result SSHResp * B;
  sockstatLogger_nil : B -> bool;
  sockstatLogger_Flush : B -> B;
  sockstatLogger_LogID : B -> string;
  c2nLogHeap : option (W -> Request -> W);
  ScrubbedGoroutineDump : bool -> bytes;
  WritePrometheusExpositionFormat : W -> W;
  sockstats_DebugInfo : string;
  Atoi : string -> Z;
  zero_SSHReq : SSHReq;
  json_Decode_SSHReq : Reader -> SSHReq -> result SSHReq;
  AllowsRemoteUpdate : bool;
  NewUpdater_err : option string;
  IsMacSysExt : bool;
  version_Long : string;
  os_Executable : result string;
  GOOS : string;
  filepath_Dir : string -> string;
  filepath_Join : string -> string -> string;
  Stat_IsRegular : string -> bool;
  exec_Output : string -> list string -> result bytes;
  json_Unmarshal_Long : bytes -> result string;
  exec_Start : string -> list string -> option string
}.

Variable e : Externals.

(** [func findCmdTailscale() (string, error)] *)
Definition findCmdTailscale : result string :=
  match os_Executable e with
  | Fail err => Fail err
  | Ok self =>
      if String.eqb (GOOS e) "linux" then
        if String.eqb self "/usr/sbin/tailscaled"
        then Ok "/usr/bin/tailscale"
        else Fail "tailscale not found in expected place"
      else if String.eqb (GOOS e) "windows" then
        let dir := filepath_Dir e self in
        let ts := filepath_Join e dir "tailscale.exe" in
        if Stat_IsRegular e ts
        then Ok ts
        else Fail "tailscale.exe not found in expected place"
      else Fail ("unsupported OS " +:+ GOOS e)
  end.

(** The body of [handleC2NUpdate] for a POST, from [if !res.Enabled] on:
    the final value of [res] and the processes run. *)
Definition update_post (res : C2NUpdateResponse)
  : C2NUpdateResponse * list Exec :=
  if negb (Enabled res) then (set_Err "not enabled" res, [])
  else if negb (Supported res) then (set_Err "not supported" res, [])
  else
    match findCmdTailscale with
    | Fail err =>
        (set_Err ("failed to find cmd/tailscale binary: " +:+ err) res, [])
    | Ok cmdTS =>
        let version_cmd := Exec_Output cmdTS ["version"; "--json"] in
        match exec_Output e cmdTS ["version"; "--json"] with
        | Fail err =>
            (set_Err ("failed to find cmd/tailscale binary: " +:+ err) res,
             [version_cmd])
        | Ok out =>
            match json_Unmarshal_Long e out with
            | Fail _ =>
                (set_Err "invalid JSON from cmd/tailscale version --json"
                   res, [version_cmd])
            | Ok long =>
                if negb (String.eqb long (version_Long e)) then
                  (set_Err "cmd/tailscale version mismatch" res,
                   [version_cmd])
                else
                  match exec_Start e cmdTS ["update"; "--yes"] with
                  | Some err =>
                      (set_Err ("failed to start cmd/tailscale update: "
                                +:+ err) res, [version_cmd])
                  | None =>
                      (set_Started res,
                       [version_cmd; Exec_Start cmdTS ["update"; "--yes"]])
                  end
            end
        end
    end.

(** The conditions under which a POST to /update starts the update:
    remote update is enabled and supported, the cmd/tailscale binary is
    found, the long version it reports is that of the running daemon, and
    the update command starts. *)
Definition update_starts : Prop :=
  AllowsRemoteUpdate e = true
  /\ (NewUpdater_err e = None /\ IsMacSysExt e = false)
  /\ exists cmdTS : string,
       findCmdTailscale = Ok cmdTS
       /\ (exists out : bytes,
             exec_Output e cmdTS ["version"; "--json"] = Ok out
             /\ json_Unmarshal_Long e out = Ok (version_Long e))
       /\ exec_Start e cmdTS ["update"; "--yes"] = None.

(** [func (b *LocalBackend) handleC2NUpdate(w, r)]. The receiver is not
    used. The deferred function writes [res] when the body returns
    (after the deferred [cmd.Wait()] when an update was started). *)
Definition handleC2NUpdate (w : W) (r : Request) : W * list Exec :=
  if negb (String.eqb (Method r) "GET")
     && negb (String.eqb (Method r) "POST")
  then (Error w "bad method" StatusMethodNotAllowed, [])
  else
    let res :=
      {| Enabled := AllowsRemoteUpdate e;
         Supported :=
           match NewUpdater_err e with
           | None => negb (IsMacSysExt e)
           | Some _ => false
           end;
         Started := false;
         Err := EmptyString |} in
    let '(res, ex) :=
      if String.eqb (Method r) "GET" then (res, []) else update_post res in
    (Write (JSON (EncUpdate res))
       (Header_Set "Content-Type" "application/json" w), ex).

(** What a call of the handler leaves behind. *)
Record Outcome := {
  backend : B;
  writer : W;
  procs : list Exec
}.

(** The closure [writeJSON] of [handleC2N]. *)
Definition writeJSON (v : Encoded) (w : W) : W :=
  Write (JSON v) (Header_Set "Content-Type" "application/json" w).

(** [func (b *LocalBackend) handleC2N(w, r)] *)
Definition handleC2N (b : B) (w : W) (r : Request) : Outcome :=
  let path := URL_Path r in
  if String.eqb path "/echo" then
    let '(body, _) := ReadAll (Body r) in
    {| backend := b; writer := Write (Bytes body) w; procs := [] |}
  else if String.eqb path "/update" then
    let '(w', ex) := handleC2NUpdate w r in
    {| backend := b; writer := w'; procs := ex |}
  else if String.eqb path "/logtail/flush" then
    if negb (String.eqb (Method r) "POST") then
      {| backend := b;
         writer := Error w "bad method" StatusMethodNotAllowed;
         procs := [] |}
    else
      let '(flushed, b') := TryFlushLogs e b in
      if flushed then
        {| backend := b'; writer := WriteHeader StatusNoContent w;
           procs := [] |}
      else
        {| backend := b';
           writer := Error w "no log flusher wired up"
                       StatusInternalServerError;
           procs := [] |}
  else if String.eqb path "/debug/goroutines" then
    let w := Header_Set "Content-Type" "text/plain" w in
    {| backend := b;
       writer := Write (Bytes (ScrubbedGoroutineDump e true)) w;
       procs := [] |}
  else if String.eqb path "/debug/prefs" then
    {| backend := b; writer := writeJSON (EncPrefs (Prefs e b)) w;
       procs := [] |}
  else if String.eqb path "/debug/metrics" then
    let w := Header_Set "Content-Type" "text/plain" w in
    {| backend := b; writer := WritePrometheusExpositionFormat e w;
       procs := [] |}
  else if String.eqb path "/debug/component-logging" then
    let component := FormValue r "component" in
    let secs := Atoi e (FormValue r "secs") in
    let secs := if secs =? 0 then secs - 1 else secs in
    let until := clock_Now e b + Go.int64 (secs * Second) in
    let '(err, b') := SetComponentDebugLogging e component until b in
    let res := match err with Some msg => msg | None => EmptyString end in
    {| backend := b'; writer := writeJSON (EncComponentLogging res) w;
       procs := [] |}
  else if String.eqb path "/debug/logheap" then
    match c2nLogHeap e with
    | Some logHeap =>
        {| backend := b; writer := logHeap w r; procs := [] |}
    | None =>
        {| backend := b;
           writer := Error w "not implemented" StatusNotImplemented;
           procs := [] |}
    end
  else if String.eqb path "/ssh/usernames" then
    let decoded :=
      if String.eqb (Method r) "POST"
      then json_Decode_SSHReq e (Body r) (zero_SSHReq e)
      else Ok (zero_SSHReq e) in
    match decoded with
    | Fail err =>
        {| backend := b; writer := Error w err StatusBadRequest;
           procs := [] |}
    | Ok req =>
        match getSSHUsernames e req b with
        | (Fail err, b') =>
            {| backend := b'; writer := Error w err 500; procs := [] |}
        | (Ok res, b') =>
            {| backend := b'; writer := writeJSON (EncSSHUsernames res) w;
               procs := [] |}
        end
    end
  else if String.eqb path "/sockstats" then
    if negb (String.eqb (Method r) "POST") then
      {| backend := b;
         writer := Error w "bad method" StatusMethodNotAllowed;
         procs := [] |}
    else
      let w := Header_Set "Content-Type" "text/plain" w in
      if sockstatLogger_nil e b then
        {| backend := b;
           writer := Error w "no sockstatLogger" StatusInternalServerError;
           procs := [] |}
      else
        let b' := sockstatLogger_Flush e b in
        let w := Write (Text ("logid: " +:+ sockstatLogger_LogID e b'
                              +:+ nl)) w in
        let w := Write (Text ("debug info: " +:+ sockstats_DebugInfo e
                              +:+ nl)) w in
        {| backend := b'; writer := w; procs := [] |}
  else
    {| backend := b; writer := Error w "unknown c2n path" StatusBadRequest;
       procs := [] |}.

End Handler.

Arguments Externals : clear implicits.
Arguments Encoded : clear implicits.
Arguments W : clear implicits.
Arguments Outcome : clear implicits.

End Ipnlocal.

(** ** The disco message codec (spec section 4.1) *)

Module Disco.
Import Http.

#[global] Instance byte_eq_dec : EqDecision Byte.byte := Byte.byte_eq_dec.

Definition Z_of_byte (b : Byte.byte) : Z := Z.of_N (Byte.to_N b).

Definition byte_of_Z (z : Z) : Byte.byte :=
  match Byte.of_N (Z.to_N (z mod 256)) with
  | Some b => b
  | None => Byte.x00
  end.

(** Modelled from the spec: the closed set of ping purposes, whose Go
    declaration ([type discoPingPurpose int] and its constants) is not among
    the sources; the tags are the ordinals of section 6. *)
Inductive Purpose : Type := Discovery | Heartbeat | CLI.

Definition purpose_tag (p : Purpose) : Z :=
  match p with
  | Discovery => Magicsock.pingDiscovery
  | Heartbeat => Magicsock.pingHeartbeat
  | CLI => Magicsock.pingCLI
  end.

Definition purpose_of_tag (t : Z) : option Purpose :=
  if t =? Magicsock.pingDiscovery then Some Discovery
  else if t =? Magicsock.pingHeartbeat then Some Heartbeat
  else if t =? Magicsock.pingCLI then Some CLI
  else None.

(** Modelled from the spec: an address is an IP and a port (section 3);
    on the wire, sixteen bytes of IP and the port in two bytes, high byte
    first. *)
Record AddrPort := { ip : bytes; port : Z }.

#[global] Instance AddrPort_eq_dec : EqDecision AddrPort.
Proof. solve_decision. Defined.

Definition ipLen : nat := 16.
Definition addrLen : nat := 18.

Definition valid_addr (a : AddrPort) : Prop :=
  length (ip a) = ipLen /\ 0 <= port a < 65536.

Definition encode_addr (a : AddrPort) : bytes :=
  ip a ++ [byte_of_Z (port a / 256); byte_of_Z (port a mod 256)].

Definition decode_addr (bs : bytes) : option AddrPort :=
  match drop ipLen bs with
  | [hi; lo] =>
      Some {| ip := take ipLen bs;
              port := 256 * Z_of_byte hi + Z_of_byte lo |}
  | _ => None
  end.

(** [n] addresses, one after the other. *)
Fixpoint decode_addrs (n : nat) (bs : bytes) : option (list AddrPort) :=
  match n with
  | O => match bs with [] => Some [] | _ => None end
  | S n' =>
      a ← decode_addr (take addrLen bs);
      rest ← decode_addrs n' (drop addrLen bs);
      Some (a :: rest)
  end.

(** Modelled from the spec: the three message kinds of section 4.1,
    [Ping{token, src-purpose}], [Pong{token, observed-src-addr}] and
    [CallMeMaybe{candidate-list}]. *)
Inductive Message : Type :=
| Ping (token : bytes) (purpose : Purpose)
| Pong (token : bytes) (src : AddrPort)
| CallMeMaybe (cands : list AddrPort).

(** Modelled from the spec: the two decode-time errors of section 7. *)
Inductive DecodeError : Type := MalformedMessage | UnknownPurpose.

Definition kindPing : Z := 1.
Definition kindPong : Z := 2.
Definition kindCallMeMaybe : Z := 3.

Section Codec.
(** The spec fixes neither the width of the correlation token nor the
    authentication scheme; [auth key data] is the authenticator of [data]
    under the sender's key. *)
Variable tokenLen : nat.
Variable tagLen : nat.
Variable auth : bytes -> bytes -> bytes.

Definition valid (m : Message) : Prop :=
  match m with
  | Ping token _ => length token = tokenLen
  | Pong token src => length token = tokenLen /\ valid_addr src
  | CallMeMaybe cands => Forall valid_addr cands
  end.

Definition payload (m : Message) : bytes :=
  match m with
  | Ping token purpose =>
      byte_of_Z kindPing :: token ++ [byte_of_Z (purpose_tag purpose)]
  | Pong token src => byte_of_Z kindPong :: token ++ encode_addr src
  | CallMeMaybe cands =>
      byte_of_Z kindCallMeMaybe :: concat (map encode_addr cands)
  end.

(** Modelled from the spec: encoding into an authenticated binary frame
    bound to the sender's key (section 4.1), the frame being the payload
    followed by its authenticator. *)
Definition encode (key : bytes) (m : Message) : bytes :=
  payload m ++ auth key (payload m).

Definition parse (body : bytes) : DecodeError + Message :=
  match body with
  | [] => inl MalformedMessage
  | k :: rest =>
      if Z_of_byte k =? kindPing then
        match drop tokenLen rest with
        | [t] =>
            match purpose_of_tag (Z_of_byte t) with
            | Some purpose => inr (Ping (take tokenLen rest) purpose)
            | None => inl UnknownPurpose
            end
        | _ => inl MalformedMessage
        end
      else if Z_of_byte k =? kindPong then
        if bool_decide (length rest = (tokenLen + addrLen)%nat) then
          match decode_addr (drop tokenLen rest) with
          | Some src => inr (Pong (take tokenLen rest) src)
          | None => inl MalformedMessage
          end
        else inl MalformedMessage
      else if Z_of_byte k =? kindCallMeMaybe then
        match decode_addrs (length rest / addrLen)%nat rest with
        | Some cands => inr (CallMeMaybe cands)
        | None => inl MalformedMessage
        end
      else inl MalformedMessage
  end.

(** Modelled from the spec: decoding fails with [MalformedMessage] on
    truncated or unauthenticated input and with [UnknownPurpose] on a
    purpose tag outside the closed set (section 4.1). *)
Definition decode (key : bytes) (frame : bytes) : DecodeError + Message :=
  let n := length frame in
  if bool_decide (n < 1 + tagLen)%nat then inl MalformedMessage
  else
    let body := take (n - tagLen) frame in
    let tag := drop (n - tagLen) frame in
    if bool_decide (tag = auth key body) then parse body
    else inl MalformedMessage.

End Codec.

End Disco.

(** ** The path selection state machine (spec sections 3, 4.2 to 4.4) *)

Module PathSel.
Import Disco.

(** Modelled from the spec: the source tag and the validation state of an
    endpoint candidate (section 3). *)
Inductive SourceTag : Type := LocalDiscovered | StunReflexive | PeerAdvertised.

Inductive Validation : Type := Unvalidated | Validated | Stale.

(** Modelled from the spec: an endpoint candidate (section 3), with the
    outcome of its last probe; [pending] says that a Discovery probe is
    outstanding, [isActive] that it is the active candidate. Times are in
    nanoseconds. *)
Record Candidate := {
  addr : AddrPort;
  source : SourceTag;
  lastSeen : Z;
  validation : Validation;
  validatedAt : Z;
  rtt : Z;
  pending : bool;
  isActive : bool
}.

(** Modelled from the spec: the path state of a peer (section 3). *)
Inductive PathState : Type := NoPath | Probing | Direct | Relayed | Degraded.

(** Modelled from the spec: the per-peer state machine owns the candidates
    of the peer and remembers the candidate that was active before. *)
Record Machine := {
  path : PathState;
  candidates : list Candidate;
  previous : option AddrPort
}.

Definition initial : Machine :=
  {| path := NoPath; candidates := []; previous := None |}.

(** Modelled from the spec: the typed events of a peer's inbox (section 9),
    with the expiry of the grace window and the pruning of the store. *)
Inductive Event : Type :=
| CandidateAdded (a : AddrPort) (src : SourceTag) (now : Z)
| PongReceived (a : AddrPort) (purpose : Purpose) (rtt : Z) (now : Z)
| ProbeFailed (a : AddrPort) (purpose : Purpose)
| GraceExpired
| Prune (olderThan : Z).

Definition has_addr (a : AddrPort) (c : Candidate) : bool :=
  bool_decide (addr c = a).

Definition known (a : AddrPort) (cs : list Candidate) : bool :=
  existsb (has_addr a) cs.

(** [ActiveCandidate()] of section 4.4. *)
Definition ActiveCandidate (cs : list Candidate) : option Candidate :=
  List.find isActive cs.

Definition refresh (now : Z) (c : Candidate) : Candidate :=
  {| addr := addr c; source := source c; lastSeen := now;
     validation := validation c; validatedAt := validatedAt c; rtt := rtt c;
     pending := negb (isActive c); isActive := isActive c |}.

Definition fresh (a : AddrPort) (src : SourceTag) (now : Z) : Candidate :=
  {| addr := a; source := src; lastSeen := now; validation := Unvalidated;
     validatedAt := 0; rtt := 0; pending := true; isActive := false |}.

(** [AddCandidate] of section 4.4: a known address is refreshed, a new one
    joins the store; either way it is probed. *)
Definition AddCandidate (a : AddrPort) (src : SourceTag) (now : Z)
  (cs : list Candidate) : list Candidate :=
  if known a cs
  then map (fun c => if has_addr a c then refresh now c else c) cs
  else cs ++ [fresh a src now].

(** [OnPong] of section 4.2 marks the candidate validated. *)
Definition mark_validated (a : AddrPort) (r now : Z) (cs : list Candidate)
  : list Candidate :=
  map (fun c =>
         if has_addr a c then
           {| addr := addr c; source := source c; lastSeen := now;
              validation := Validated; validatedAt := now; rtt := r;
              pending := false; isActive := isActive c |}
         else c) cs.

Definition set_active (b : bool) (c : Candidate) : Candidate :=
  {| addr := addr c; source := source c; lastSeen := lastSeen c;
     validation := validation c; validatedAt := validatedAt c; rtt := rtt c;
     pending := pending c; isActive := b |}.

(** Makes the candidate at [a] the active one. *)
Definition activate (a : AddrPort) (cs : list Candidate) : list Candidate :=
  map (fun c => set_active (has_addr a c) c) cs.

Definition deactivate (cs : list Candidate) : list Candidate :=
  map (set_active false) cs.

(** Re-probing of the alternates of the active candidate. *)
Definition reprobe (cs : list Candidate) : list Candidate :=
  map (fun c =>
         {| addr := addr c; source := source c; lastSeen := lastSeen c;
            validation := validation c; validatedAt := validatedAt c;
            rtt := rtt c; pending := negb (isActive c);
            isActive := isActive c |}) cs.

(** A failed Discovery probe takes the candidate out of consideration; the
    active candidate stays in the store, marked stale (section 4.4). *)
Definition reject (a : AddrPort) (cs : list Candidate) : list Candidate :=
  map (fun c =>
         if has_addr a c then
           {| addr := addr c; source := source c; lastSeen := lastSeen c;
              validation := Stale; validatedAt := validatedAt c; rtt := rtt c;
              pending := false; isActive := isActive c |}
         else c)
      (List.filter (fun c => negb (has_addr a c) || isActive c) cs).

(** The priority order of section 4.3: the previously active candidate
    first, then the most recently validated, then the most recently
    observed. *)
Definition is_previous (prev : option AddrPort) (c : Candidate) : bool :=
  match prev with
  | Some a => has_addr a c
  | None => false
  end.

Definition is_validated (c : Candidate) : bool :=
  match validation c with Validated => true | _ => false end.

Definition outranks (prev : option AddrPort) (c d : Candidate) : bool :=
  if is_previous prev c then negb (is_previous prev d)
  else if is_previous prev d then false
  else if is_validated c then
    negb (is_validated d) || (validatedAt d <? validatedAt c)
  else if is_validated d then false
  else lastSeen d <? lastSeen c.

(** Some candidate that outranks the one at [a] is still being probed. *)
Definition outranked_by_pending (prev : option AddrPort) (a : AddrPort)
  (cs : list Candidate) : bool :=
  match List.find (has_addr a) cs with
  | Some d => existsb (fun c => pending c && outranks prev c d) cs
  | None => false
  end.

(** The tie-break of section 4.3: the lower round-trip time wins and, on an
    exact tie, the candidate validated first. *)
Definition beats (c d : Candidate) : bool :=
  (rtt c <? rtt d) || ((rtt c =? rtt d) && (validatedAt c <? validatedAt d)).

Definition better (best : option Candidate) (c : Candidate)
  : option Candidate :=
  if is_validated c then
    match best with
    | Some d => if beats c d then Some c else Some d
    | None => Some c
    end
  else best.

Definition best_validated (cs : list Candidate) : option Candidate :=
  fold_left better cs None.

Definition on_pong (m : Machine) (a : AddrPort) (purpose : Purpose)
  (r now : Z) : Machine :=
  if negb (known a (candidates m)) then m
  else
    let cs := mark_validated a r now (candidates m) in
    match purpose with
    | CLI => m
    | Heartbeat =>
        match path m with
        | Degraded =>
            {| path := Direct; candidates := activate a cs;
               previous := previous m |}
        | st => {| path := st; candidates := cs; previous := previous m |}
        end
    | Discovery =>
        match path m with
        | Probing =>
            if outranked_by_pending (previous m) a cs
            then {| path := Probing; candidates := cs; previous := previous m |}
            else {| path := Direct; candidates := activate a cs;
                    previous := previous m |}
        | Degraded =>
            {| path := Direct; candidates := activate a cs;
               previous := previous m |}
        | Direct =>
            match List.find (has_addr a) cs, ActiveCandidate cs with
            | Some c, Some d =>
                if beats c d
                then {| path := Direct; candidates := activate a cs;
                        previous := Some (addr d) |}
                else {| path := Direct; candidates := cs;
                        previous := previous m |}
            | _, _ =>
                {| path := Direct; candidates := activate a cs;
                   previous := previous m |}
            end
        | st => {| path := st; candidates := cs; previous := previous m |}
        end
    end.

Definition on_probe_failed (m : Machine) (a : AddrPort) (purpose : Purpose)
  : Machine :=
  match purpose with
  | CLI => m
  | Heartbeat =>
      match path m, ActiveCandidate (candidates m) with
      | Direct, Some c =>
          if has_addr a c
          then {| path := Degraded; candidates := reprobe (candidates m);
                  previous := previous m |}
          else m
      | _, _ => m
      end
  | Discovery =>
      let cs := reject a (candidates m) in
      match path m with
      | Probing =>
          if existsb pending cs
          then {| path := Probing; candidates := cs; previous := previous m |}
          else
            match best_validated cs with
            | Some c =>
                {| path := Direct; candidates := activate (addr c) cs;
                   previous := previous m |}
            | None =>
                {| path := Relayed; candidates := cs; previous := previous m |}
            end
      | st => {| path := st; candidates := cs; previous := previous m |}
      end
  end.

(** Modelled from the spec: the transitions of section 4.3, with the effect
    of each probe purpose as section 4.2 gives it. *)
Definition step (m : Machine) (ev : Event) : Machine :=
  match ev with
  | CandidateAdded a src now =>
      {| path := match path m with
                 | NoPath | Relayed => Probing
                 | st => st
                 end;
         candidates := AddCandidate a src now (candidates m);
         previous := previous m |}
  | PongReceived a purpose r now => on_pong m a purpose r now
  | ProbeFailed a purpose => on_probe_failed m a purpose
  | GraceExpired =>
      match path m with
      | Degraded =>
          {| path := Relayed; candidates := deactivate (candidates m);
             previous :=
               match ActiveCandidate (candidates m) with
               | Some c => Some (addr c)
               | None => previous m
               end |}
      | _ => m
      end
  | Prune olderThan =>
      {| path := path m;
         candidates :=
           List.filter (fun c => isActive c || (olderThan <=? lastSeen c))
             (candidates m);
         previous := previous m |}
  end.

(** A candidate is Direct-active when it is the active candidate of a peer
    whose path state is [Direct]. *)
Definition direct_active (m : Machine) (c : Candidate) : bool :=
  match path m with
  | Direct => isActive c
  | _ => false
  end.

(** Modelled from the spec: the engine keeps one machine per peer, created
    when the peer appears in the peer list and torn down when it is removed
    (section 3); the events of unknown peers are dropped. *)
Inductive Input : Type :=
| PeerAdded (p : string)
| PeerRemoved (p : string)
| PeerEvent (p : string) (ev : Event).

Definition engine_step (E : gmap string Machine) (i : Input)
  : gmap string Machine :=
  match i with
  | PeerAdded p =>
      match E !! p with
      | Some _ => E
      | None => <[p := initial]> E
      end
  | PeerRemoved p => delete p E
  | PeerEvent p ev =>
      match E !! p with
      | Some m => <[p := step m ev]> E
      | None => E
      end
  end.

Definition run (inputs : list Input) : gmap string Machine :=
  fold_left engine_step inputs ∅.

(** The invariant of the candidate store: one candidate per address, and at
    most one of them active. *)
Definition store_ok (cs : list Candidate) : Prop :=
  NoDup (map addr cs) /\ (length (List.filter isActive cs) <= 1)%nat.

End PathSel.

(** ** A small backend on which the handler can be run *)

Module Sample.
Import Http Ipnlocal.

(** A backend with a table of per-peer path machines next to the state that
    the handler's callees change. *)
Record Backend := {
  conn : gmap string PathSel.Machine;
  flushes : nat;
  logUntil : gmap string Z;
  sockstatFlushes : nat
}.

Definition peerA : Disco.AddrPort :=
  {| Disco.ip := repeat Byte.x0a 16; Disco.port := 41641 |}.

Definition backend0 : Backend :=
  {| conn := {[ "peer1" :=
                  PathSel.step PathSel.initial
                    (PathSel.CandidateAdded peerA PathSel.StunReflexive 5) ]};
     flushes := 0;
     logUntil := ∅;
     sockstatFlushes := 0 |}.

Definition version_json : bytes := list_byte_of_string "{long:1.44.0-t1}".

Definition externals : Externals Backend string (list string) (list string) :=
  {| TryFlushLogs := fun b =>
       (true, {| conn := conn b; flushes := S (flushes b);
                 logUntil := logUntil b;
                 sockstatFlushes := sockstatFlushes b |});
     Prefs := fun _ => "prefs";
     clock_Now := fun _ => 1700000000000000000;
     SetComponentDebugLogging := fun component until b =>
       (None, {| conn := conn b; flushes := flushes b;
                 logUntil := <[component := until]> (logUntil b);
                 sockstatFlushes := sockstatFlushes b |});
     getSSHUsernames := fun req b => (Ok ("root" :: req), b);
     sockstatLogger_nil := fun _ => false;
     sockstatLogger_Flush := fun b =>
       {| conn := conn b; flushes := flushes b; logUntil := logUntil b;
          sockstatFlushes := S (sockstatFlushes b) |};
     sockstatLogger_LogID := fun _ => "logid0";
     c2nLogHeap := None;
     ScrubbedGoroutineDump := fun _ => list_byte_of_string "goroutine 1";
     WritePrometheusExpositionFormat := Write (Text "# TYPE up gauge");
     sockstats_DebugInfo := "none";
     Atoi := fun _ => 0;
     zero_SSHReq := [];
     json_Decode_SSHReq := fun _ req => Ok req;
     AllowsRemoteUpdate := true;
     NewUpdater_err := None;
     IsMacSysExt := false;
     version_Long := "1.44.0-t1";
     os_Executable := Ok "/usr/sbin/tailscaled";
     GOOS := "linux";
     filepath_Dir := fun p => p;
     filepath_Join := fun d f => d +:+ "/" +:+ f;
     Stat_IsRegular := fun _ => false;
     exec_Output := fun _ _ => Ok version_json;
     json_Unmarshal_Long := fun _ => Ok "1.44.0-t1";
     exec_Start := fun _ _ => None |}.

Definition request (method path : string) (body : list bytes) : Request :=
  {| Method := method; URL_Path := path;
     Body := {| chunks := body; fails := None |};
     FormValue := fun _ => EmptyString |}.

(** A toy authenticator for the codec: the length of the key and the
    exclusive or of the data, two bytes. *)
Definition xor_byte (a b : Byte.byte) : Byte.byte :=
  Disco.byte_of_Z (Z.lxor (Disco.Z_of_byte a) (Disco.Z_of_byte b)).

Definition auth (key data : bytes) : bytes :=
  [Disco.byte_of_Z (Z.of_nat (length key)); fold_left xor_byte data Byte.x00].

Definition token : bytes := list_byte_of_string "0123456789ab".

Definition peerB : Disco.AddrPort :=
  {| Disco.ip := repeat Byte.x0b 16; Disco.port := 3478 |}.

(** Two candidates of one peer validate, the second with the lower
    round-trip time, so that the active candidate changes while the path is
    [Direct]. *)
Definition inputs : list PathSel.Input :=
  [PathSel.PeerAdded "peer1";
   PathSel.PeerEvent "peer1"
     (PathSel.CandidateAdded peerA PathSel.StunReflexive 1);
   PathSel.PeerEvent "peer1"
     (PathSel.CandidateAdded peerB PathSel.PeerAdvertised 2);
   PathSel.PeerEvent "peer1" (PathSel.PongReceived peerA Disco.Discovery 40 3);
   PathSel.PeerEvent "peer1" (PathSel.PongReceived peerB Disco.Discovery 15 4)].

End Sample.

(** ** Vocabulary for the effects of the handler *)

Module Effects.
Import Http Ipnlocal.

(** The program that an [os/exec] call runs. *)
Definition exec_name (x : Exec) : string :=
  match x with
  | Exec_Output name _ => name
  | Exec_Start name _ => name
  end.

(** The cases of the path switch that call a method which may change the
    backend: [TryFlushLogs], [SetComponentDebugLogging], [getSSHUsernames]
    and [sockstatLogger.Flush]. *)
Definition mutating_paths : list string :=
  ["/logtail/flush"; "/debug/component-logging"; "/ssh/usernames";
   "/sockstats"].

(** The status codes with which the handler turns a request down before
    doing anything. *)
Definition rejections : list Z :=
  [StatusBadRequest; StatusMethodNotAllowed; StatusNotImplemented].

(** The largest [secs] for which [time.Duration(secs) * time.Second] does
    not overflow. *)
Definition max_secs : Z := 9223372036.

(** The value of [res] in [handleC2NUpdate] when the deferred writer is
    registered. *)
Definition initial_response {B PrefsView SSHReq SSHResp : Type}
  (e : Externals B PrefsView SSHReq SSHResp) : C2NUpdateResponse :=
  {| Enabled := AllowsRemoteUpdate e;
     Supported :=
       match NewUpdater_err e with
       | None => negb (IsMacSysExt e)
       | Some _ => false
       end;
     Started := false;
     Err := EmptyString |}.

End Effects.

(** ** Hosts on which the handler can be run *)

Module Hosts.
Import Http Ipnlocal.

(** The sample backend on a host with the given operating system,
    executable, update settings and form parser. *)
Definition host (goos : string) (exe : result string) (regular : bool)
  (enabled : bool) (newUpdater : option string) (atoi : string -> Z)
  : Externals Sample.Backend string (list string) (list string) :=
  {| TryFlushLogs := TryFlushLogs Sample.externals;
     Prefs := Prefs Sample.externals;
     clock_Now := clock_Now Sample.externals;
     SetComponentDebugLogging := SetComponentDebugLogging Sample.externals;
     getSSHUsernames := getSSHUsernames Sample.externals;
     sockstatLogger_nil := sockstatLogger_nil Sample.externals;
     sockstatLogger_Flush := sockstatLogger_Flush Sample.externals;
     sockstatLogger_LogID := sockstatLogger_LogID Sample.externals;
     c2nLogHeap := None;
     ScrubbedGoroutineDump := ScrubbedGoroutineDump Sample.externals;
     WritePrometheusExpositionFormat :=
       WritePrometheusExpositionFormat Sample.externals;
     sockstats_DebugInfo := sockstats_DebugInfo Sample.externals;
     Atoi := atoi;
     zero_SSHReq := [];
     json_Decode_SSHReq := fun _ _ => Fail "unexpected EOF";
     AllowsRemoteUpdate := enabled;
     NewUpdater_err := newUpdater;
     IsMacSysExt := false;
     version_Long := version_Long Sample.externals;
     os_Executable := exe;
     GOOS := goos;
     filepath_Dir := fun _ => "C:\Program Files\Tailscale";
     filepath_Join := fun d f => d +:+ "\" +:+ f;
     Stat_IsRegular := fun _ => regular;
     exec_Output := exec_Output Sample.externals;
     json_Unmarshal_Long := json_Unmarshal_Long Sample.externals;
     exec_Start := exec_Start Sample.externals |}.

Definition windows
  : Externals Sample.Backend string (list string) (list string) :=
  host "windows" (Ok "C:\Program Files\Tailscale\tailscaled.exe") true true
    None (fun _ => 0).

Definition disabled
  : Externals Sample.Backend string (list string) (list string) :=
  host "linux" (Ok "/usr/sbin/tailscaled") false false (Some "no updater")
    (fun _ => 0).

Definition form (secs : string) (key : string) : string :=
  if String.eqb key "secs" then secs
  else if String.eqb key "component" then "magicsock"
  else EmptyString.

Definition logging_request (secs : string) : Request :=
  {| Method := "GET"; URL_Path := "/debug/component-logging";
     Body := {| chunks := []; fails := None |};
     FormValue := form secs |}.

End Hosts.

(** ** Proof automation for the handler *)

(** Decides one comparison of the path switch, for a path that is
    not among its cases. *)
Ltac skip_case Hnot :=
  match goal with
  | |- context [String.eqb ?p ?s] =>
      destruct (String.eqb_spec p s) as [Heq | _];
      [exfalso; apply Hnot; rewrite Heq; unfold Ipnlocal.c2n_paths; simpl;
       tauto|]
  end.

(** Closes a branch of [update_post] that sets [Err] and returns. *)
Ltac stays_false Hs :=
  rewrite ?Hs;
  split; [first [reflexivity | assumption]|];
  split; [first [reflexivity | assumption]|];
  split;
  [split;
   [discriminate
   |intros (He & Hsu' & cmd' & Hf' & (out' & Ho' & Hj') & Hst'); congruence]
  |];
  split;
  [intros _; simpl; discriminate
  |split;
   [discriminate
   |intros (cmd' & Hin); simpl in Hin;
    repeat (destruct Hin as [Hin|Hin]; [discriminate Hin|]); destruct Hin]].

(** Settles one direction of an equivalence between an error message and
    its cause, in a branch of [update_post]; [nil_prefix] is the fact that
    the empty string is a prefix of every string. *)
Ltac diagnose nil_prefix :=
  let H := fresh "H" in
  intros H;
  first
    [reflexivity
    |apply nil_prefix
    |discriminate H
    |vm_compute in H; discriminate H
    |exfalso; decompose [and or ex] H; congruence
    |repeat split; eauto 12].

(** ** Properties of [discoPingPurpose.String] *)

Section MagicsockFacts.
Import Go Magicsock.

Lemma int64_id (i : Z) : is_int i -> int64 i = i.
Proof.
  unfold is_int, int64. intros Hi.
  rewrite Z.mod_small by lia. lia.
Qed.

Lemma stringer_check_iff (d h c : Z) :
  stringer_check d h c = true <-> d = 0 /\ h = 1 /\ c = 2.
Proof.
  unfold stringer_check, const_index_ok.
  rewrite !andb_true_iff, !Z.leb_le, !Z.ltb_lt. lia.
Qed.

(** Outside the guard the method takes the fallback branch. *)
Lemma String_fallback (i : Z) (g : Globals) :
  i < 0 \/ 3 <= i ->
  discoPingPurpose_String i g
  = (Some ("discoPingPurpose(" +:+ FormatInt10 (int64 i) +:+ ")"), g).
Proof.
  intros Hi. unfold discoPingPurpose_String, len_index.
  replace ((i <? 0) || (i >=? 4 - 1)) with true; [reflexivity|].
  symmetry. apply orb_true_iff. rewrite Z.ltb_lt, Z.geb_le. lia.
Qed.

(** Inside the guard there are three values to consider. *)
Lemma guard_cases (i : Z) : 0 <= i < 3 -> i = 0 \/ i = 1 \/ i = 2.
Proof. lia. Qed.

Lemma String_in_range (i : Z) :
  0 <= i < 3 ->
  exists lo hi name,
    index (_discoPingPurpose_index init) i = Some lo
    /\ index (_discoPingPurpose_index init) (i + 1) = Some hi
    /\ slice _discoPingPurpose_name lo hi = Some name
    /\ 0 <= lo <= hi /\ hi <= 21
    /\ discoPingPurpose_String i init = (Some name, init).
Proof.
  intros Hi.
  destruct (guard_cases i Hi) as [-> | [-> | ->]].
  - exists 0, 9, "Discovery". repeat split; reflexivity || lia.
  - exists 9, 18, "Heartbeat". repeat split; reflexivity || lia.
  - exists 18, 21, "CLI". repeat split; reflexivity || lia.
Qed.

(** The fallback form begins with a lower-case letter, the names do not. *)
Lemma fallback_not_a_name (digits : string) :
  ~ In ("discoPingPurpose(" +:+ digits +:+ ")") valid_names.
Proof.
  unfold valid_names. simpl. intros [H | [H | [H | []]]]; discriminate H.
Qed.

(** C1: the purposes have the ordinals Discovery = 0, Heartbeat = 1 and
    CLI = 2 (the only values with which the generated file compiles), and
    [String] renders 0, 1 and 2 as "Discovery", "Heartbeat" and "CLI". *)
Theorem purpose_ordinals_and_names :
  (forall d h c : Z, stringer_check d h c = true <-> d = 0 /\ h = 1 /\ c = 2)
  /\ stringer_check pingDiscovery pingHeartbeat pingCLI = true
  /\ discoPingPurpose_String pingDiscovery init = (Some "Discovery", init)
  /\ discoPingPurpose_String pingHeartbeat init = (Some "Heartbeat", init)
  /\ discoPingPurpose_String pingCLI init = (Some "CLI", init)
  /\ discoPingPurpose_String 0 init = (Some "Discovery", init)
  /\ discoPingPurpose_String 1 init = (Some "Heartbeat", init)
  /\ discoPingPurpose_String 2 init = (Some "CLI", init).
Proof.
  split; [exact stringer_check_iff|].
  repeat split; reflexivity.
Qed.

(** C2: for every purpose value [i] outside {0, 1, 2}, negative or at least
    3, [String] returns the fallback form "discoPingPurpose(" followed by
    the decimal digits of [i] and ")", which is none of the three names. *)
Theorem unknown_purpose_fallback (i : Z) :
  is_int i ->
  i < 0 \/ 3 <= i ->
  exists s : string,
    discoPingPurpose_String i init = (Some s, init)
    /\ s = "discoPingPurpose(" +:+ FormatInt10 i +:+ ")"
    /\ ~ In s valid_names.
Proof.
  intros Hint Hout.
  exists ("discoPingPurpose(" +:+ FormatInt10 i +:+ ")").
  split; [|split].
  - rewrite (String_fallback i init Hout), (int64_id i Hint). reflexivity.
  - reflexivity.
  - apply fallback_not_a_name.
Qed.

Lemma unknown_purpose_fallback_witness :
  is_int (-4) /\ (-4 < 0 \/ 3 <= -4)
  /\ exists s : string,
       discoPingPurpose_String (-4) init = (Some s, init)
       /\ s = "discoPingPurpose(" +:+ FormatInt10 (-4) +:+ ")"
       /\ ~ In s valid_names.
Proof.
  assert (H1 : is_int (-4)) by (unfold is_int; lia).
  assert (H2 : -4 < 0 \/ 3 <= -4) by lia.
  split; [exact H1|]. split; [exact H2|].
  exact (unknown_purpose_fallback (-4) H1 H2).
Defined.

(** C4: rendering a purpose is a pure transform. Whatever the store of
    package-level variables, [String] leaves it as it was, and a second run
    on the same input gives the same output as the first. *)
Theorem String_pure (i : Z) (g : Globals) :
  snd (discoPingPurpose_String i g) = g
  /\ discoPingPurpose_String i (snd (discoPingPurpose_String i g))
     = discoPingPurpose_String i g.
Proof.
  assert (Hsnd : snd (discoPingPurpose_String i g) = g).
  { unfold discoPingPurpose_String.
    destruct ((i <? 0) || (i >=? len_index - 1)); [reflexivity|].
    unfold mbind, M_bind, read, check.
    destruct (index (_discoPingPurpose_index g) i) as [lo|]; [|reflexivity].
    destruct (index (_discoPingPurpose_index g) (i + 1)) as [hi|];
      reflexivity. }
  split; [exact Hsnd|]. rewrite Hsnd. reflexivity.
Qed.

(** C8: [String] never panics. For every [i] it returns a string; the two
    table entries are read only under the guard [0 <= i <= 2], where they
    exist and are ordered and at most 21, the length of the name string;
    outside the guard one of the two reads would be out of range. *)
Theorem String_total_in_bounds (i : Z) :
  (exists s : string, discoPingPurpose_String i init = (Some s, init))
  /\ len_string _discoPingPurpose_name = 21
  /\ (0 <= i <= 2 ->
      exists lo hi : Z,
        index (_discoPingPurpose_index init) i = Some lo
        /\ index (_discoPingPurpose_index init) (i + 1) = Some hi
        /\ 0 <= lo <= hi
        /\ hi <= len_string _discoPingPurpose_name
        /\ is_Some (slice _discoPingPurpose_name lo hi))
  /\ (~ 0 <= i <= 2 ->
      (i <? 0) || (i >=? len_index - 1) = true
      /\ (index (_discoPingPurpose_index init) i = None
          \/ index (_discoPingPurpose_index init) (i + 1) = None)).
Proof.
  split; [|split; [reflexivity|split]].
  - destruct (Z_lt_ge_dec i 0) as [Hneg|Hnn].
    { eexists. apply String_fallback. lia. }
    destruct (Z_lt_ge_dec i 3) as [Hlt|Hge].
    + destruct (String_in_range i) as (lo & hi & name & _ & _ & _ & _ & _ & H);
        [lia|]. exists name. exact H.
    + eexists. apply String_fallback. lia.
  - intros Hi.
    destruct (String_in_range i)
      as (lo & hi & name & H1 & H2 & H3 & H4 & H5 & _); [lia|].
    exists lo, hi.
    split; [exact H1|]. split; [exact H2|]. split; [exact H4|].
    split; [change (len_string _discoPingPurpose_name) with 21; exact H5|].
    rewrite H3. eexists. reflexivity.
  - intros Hout. split.
    + apply orb_true_iff. rewrite Z.ltb_lt, Z.geb_le. unfold len_index. lia.
    + unfold index. destruct (Z_lt_ge_dec i 0) as [Hneg|Hnn].
      * left. replace (0 <=? i) with false; [reflexivity|].
        symmetry. apply Z.leb_gt. lia.
      * right. replace (0 <=? i + 1) with true
          by (symmetry; apply Z.leb_le; lia).
        apply lookup_ge_None_2. simpl. lia.
Qed.

End MagicsockFacts.


(** ** Properties of the c2n handler *)

Section IpnlocalFacts.
Import Http Ipnlocal.
Context {B PrefsView SSHReq SSHResp : Type}.
Variable e : Externals B PrefsView SSHReq SSHResp.

Lemma handleC2N_default (b : B) (w : W PrefsView SSHResp) (r : Request) :
  ~ In (URL_Path r) c2n_paths ->
  handleC2N e b w r
  = {| backend := b; writer := Error w "unknown c2n path" StatusBadRequest;
       procs := [] |}.
Proof.
  intros Hnot. unfold handleC2N.
  do 10 skip_case Hnot. reflexivity.
Qed.

Lemma Error_Status (w : W PrefsView SSHResp) (msg : string) (code : Z) :
  Status w = None -> Status (Error w msg code) = Some code.
Proof. intros H. unfold Error. simpl. rewrite H. reflexivity. Qed.

Lemma Error_Written (w : W PrefsView SSHResp) (msg : string) (code : Z) :
  Written (Error w msg code) = Written w ++ [Text (msg +:+ nl)].
Proof. reflexivity. Qed.

Lemma handleC2N_echo (b : B) (w : W PrefsView SSHResp) (r : Request) :
  URL_Path r = "/echo" ->
  handleC2N e b w r
  = {| backend := b;
       writer := Write (Bytes (concat (chunks (Body r)))) w;
       procs := [] |}.
Proof. intros Hp. unfold handleC2N. rewrite Hp. reflexivity. Qed.

Lemma handleC2N_update (b : B) (w : W PrefsView SSHResp) (r : Request) :
  URL_Path r = "/update" ->
  handleC2N e b w r
  = {| backend := b; writer := fst (handleC2NUpdate e w r);
       procs := snd (handleC2NUpdate e w r) |}.
Proof.
  intros Hp. unfold handleC2N. rewrite Hp. simpl.
  destruct (handleC2NUpdate e w r). reflexivity.
Qed.

(** C10: on the path /echo, whatever the method, the handler writes back
    the bytes of the request body and nothing else, with status 200 on a
    fresh writer; the backend is untouched and no process is run. *)
Theorem echo_is_identity (b : B) (w : W PrefsView SSHResp) (r : Request) :
  URL_Path r = "/echo" ->
  Written (writer (handleC2N e b w r))
  = Written w ++ [Bytes (concat (chunks (Body r)))]
  /\ Header (writer (handleC2N e b w r)) = Header w
  /\ (Status w = None -> Status (writer (handleC2N e b w r)) = Some StatusOK)
  /\ backend (handleC2N e b w r) = b
  /\ procs (handleC2N e b w r) = [].
Proof.
  intros Hp. rewrite (handleC2N_echo b w r Hp). simpl.
  repeat split. intros Hs. rewrite Hs. reflexivity.
Qed.

(** C5: the four administrative functions each have their own case of the
    path switch (log flushing calls [TryFlushLogs], metrics export calls
    [WritePrometheusExpositionFormat], remote update calls
    [handleC2NUpdate], the user name lookup calls [getSSHUsernames]), and a
    path that is not a case of the switch is answered with status 400 and
    the message "unknown c2n path". *)
Theorem c2n_dispatch (b : B) (w : W PrefsView SSHResp) (r : Request) :
  (URL_Path r = "/logtail/flush" ->
   handleC2N e b w r
   = if negb (String.eqb (Method r) "POST") then
       {| backend := b; writer := Error w "bad method" StatusMethodNotAllowed;
          procs := [] |}
     else if fst (TryFlushLogs e b) then
       {| backend := snd (TryFlushLogs e b);
          writer := WriteHeader StatusNoContent w; procs := [] |}
     else
       {| backend := snd (TryFlushLogs e b);
          writer := Error w "no log flusher wired up"
                      StatusInternalServerError;
          procs := [] |})
  /\ (URL_Path r = "/debug/metrics" ->
      handleC2N e b w r
      = {| backend := b;
           writer := WritePrometheusExpositionFormat e
                       (Header_Set "Content-Type" "text/plain" w);
           procs := [] |})
  /\ (URL_Path r = "/update" ->
      handleC2N e b w r
      = {| backend := b; writer := fst (handleC2NUpdate e w r);
           procs := snd (handleC2NUpdate e w r) |})
  /\ (URL_Path r = "/ssh/usernames" ->
      handleC2N e b w r
      = match (if String.eqb (Method r) "POST"
               then json_Decode_SSHReq e (Body r) (zero_SSHReq e)
               else Ok (zero_SSHReq e)) with
        | Fail err =>
            {| backend := b; writer := Error w err StatusBadRequest;
               procs := [] |}
        | Ok req =>
            match fst (getSSHUsernames e req b) with
            | Fail err =>
                {| backend := snd (getSSHUsernames e req b);
                   writer := Error w err 500; procs := [] |}
            | Ok res =>
                {| backend := snd (getSSHUsernames e req b);
                   writer := writeJSON (EncSSHUsernames res) w; procs := [] |}
            end
        end)
  /\ (~ In (URL_Path r) c2n_paths ->
      handleC2N e b w r
      = {| backend := b; writer := Error w "unknown c2n path" StatusBadRequest;
           procs := [] |}
      /\ Written (writer (handleC2N e b w r))
         = Written w ++ [Text ("unknown c2n path" +:+ nl)]
      /\ (Status w = None -> Status (writer (handleC2N e b w r)) = Some 400)).
Proof.
  repeat apply conj.
  - intros Hp. unfold handleC2N. rewrite Hp. simpl.
    destruct (negb (String.eqb (Method r) "POST")); [reflexivity|].
    destruct (TryFlushLogs e b) as [[|] b']; reflexivity.
  - intros Hp. unfold handleC2N. rewrite Hp. reflexivity.
  - apply handleC2N_update.
  - intros Hp. unfold handleC2N. rewrite Hp. simpl.
    destruct (if String.eqb (Method r) "POST"
              then json_Decode_SSHReq e (Body r) (zero_SSHReq e)
              else Ok (zero_SSHReq e)) as [req|err]; [|reflexivity].
    destruct (getSSHUsernames e req b) as [[res|err] b']; reflexivity.
  - intros Hnot. rewrite (handleC2N_default b w r Hnot).
    split; [reflexivity|]. split; [reflexivity|].
    intros Hs. apply Error_Status. exact Hs.
Qed.

Lemma update_post_spec (res : C2NUpdateResponse) :
  Started res = false ->
  Enabled (fst (update_post e res)) = Enabled res
  /\ Supported (fst (update_post e res)) = Supported res
  /\ (Started (fst (update_post e res)) = true
      <-> Enabled res = true /\ Supported res = true
          /\ exists cmdTS : string,
               findCmdTailscale e = Ok cmdTS
               /\ (exists out : bytes,
                     exec_Output e cmdTS ["version"; "--json"] = Ok out
                     /\ json_Unmarshal_Long e out = Ok (version_Long e))
               /\ exec_Start e cmdTS ["update"; "--yes"] = None)
  /\ (Started (fst (update_post e res)) = false
      -> Err (fst (update_post e res)) <> EmptyString)
  /\ (Started (fst (update_post e res)) = true
      <-> exists cmd : string,
            In (Exec_Start cmd ["update"; "--yes"]) (snd (update_post e res))).
Proof.
  intros Hs. unfold update_post.
  destruct (Enabled res) eqn:Hen; simpl; [|stays_false Hs].
  destruct (Supported res) eqn:Hsu; simpl; [|stays_false Hs].
  destruct (findCmdTailscale e) as [cmdTS|err] eqn:Hfind; simpl;
    [|stays_false Hs].
  destruct (exec_Output e cmdTS ["version"; "--json"]) as [out|err] eqn:Hout;
    simpl; [|stays_false Hs].
  destruct (json_Unmarshal_Long e out) as [long|err] eqn:Hjson; simpl;
    [|stays_false Hs].
  destruct (String.eqb_spec long (version_Long e)) as [Hver|Hver]; simpl;
    [|stays_false Hs].
  destruct (exec_Start e cmdTS ["update"; "--yes"]) as [err|] eqn:Hstart;
    simpl; [stays_false Hs|].
  subst long.
  split; [exact Hen|]. split; [exact Hsu|]. split; [|split].
  - split; [intros _|reflexivity].
    split; [reflexivity|]. split; [reflexivity|].
    exists cmdTS. split; [reflexivity|]. split; [|exact Hstart].
    exists out. split; [exact Hout|exact Hjson].
  - discriminate.
  - split; [intros _|reflexivity]. exists cmdTS. right. left. reflexivity.
Qed.

Lemma supported_iff :
  match NewUpdater_err e with
  | None => negb (IsMacSysExt e)
  | Some _ => false
  end = true
  <-> NewUpdater_err e = None /\ IsMacSysExt e = false.
Proof.
  destruct (NewUpdater_err e) as [err|]; destruct (IsMacSysExt e); simpl;
    split; try discriminate; try tauto;
    intros [H1 H2]; discriminate.
Qed.

(** C9: for a GET or a POST to /update the handler writes a response [res]
    in which [Started] is true if and only if the method is POST, remote
    update is enabled and supported, the cmd/tailscale binary is found, the
    long version it reports is that of the daemon and the update command
    starts; the update process is run exactly in that case. Every other
    POST leaves [Started] false and sets [Err] to a non-empty message, and a
    GET starts nothing and leaves [Err] empty. *)
Theorem update_started_iff (w : W PrefsView SSHResp) (r : Request) :
  Method r = "GET" \/ Method r = "POST" ->
  exists res : C2NUpdateResponse,
    fst (handleC2NUpdate e w r) = writeJSON (EncUpdate res) w
    /\ Enabled res = AllowsRemoteUpdate e
    /\ (Supported res = true
        <-> NewUpdater_err e = None /\ IsMacSysExt e = false)
    /\ (Started res = true <-> Method r = "POST" /\ update_starts e)
    /\ (Started res = true
        <-> exists cmd : string,
              In (Exec_Start cmd ["update"; "--yes"])
                 (snd (handleC2NUpdate e w r)))
    /\ (Method r = "POST" -> Started res = false -> Err res <> EmptyString)
    /\ (Method r = "GET" ->
        Started res = false /\ Err res = EmptyString
        /\ snd (handleC2NUpdate e w r) = []).
Proof.
  intros [Hm | Hm]; unfold handleC2NUpdate; rewrite Hm; simpl.
  - eexists. split; [reflexivity|]. simpl.
    split; [reflexivity|]. split; [exact supported_iff|].
    split; [split; [discriminate|intros [H _]; discriminate H]|].
    split; [split; [discriminate|intros [cmd []]]|].
    split; [discriminate|]. intros _. repeat split.
  - set (res0 := {| Enabled := AllowsRemoteUpdate e;
                    Supported := match NewUpdater_err e with
                                 | None => negb (IsMacSysExt e)
                                 | Some _ => false
                                 end;
                    Started := false; Err := EmptyString |}).
    destruct (update_post_spec res0 eq_refl)
      as (Hen & Hsu & Hst & Herr & Hproc).
    destruct (update_post e res0) as [res ex]. simpl in *.
    exists res. split; [reflexivity|].
    split; [exact Hen|].
    split; [rewrite Hsu; exact supported_iff|].
    split; [|split; [exact Hproc|split; [intros _; exact Herr|discriminate]]].
    rewrite Hst. unfold update_starts. rewrite supported_iff. tauto.
Qed.

End IpnlocalFacts.

(** A path that is no case of the switch, on the sample backend. *)
Example unknown_path_sample :
  let out := Ipnlocal.handleC2N Sample.externals Sample.backend0
               Http.new_writer (Sample.request "GET" "/debug/pprof" []) in
  Http.Status (Ipnlocal.writer out) = Some 400
  /\ Http.Written (Ipnlocal.writer out)
     = [Http.Text ("unknown c2n path" +:+ Http.nl)]
  /\ Http.Header (Ipnlocal.writer out) !! "Content-Type"
     = Some "text/plain; charset=utf-8".
Proof. repeat split. Qed.

(** A PUT to /echo whose body arrives in two reads. *)
Lemma echo_is_identity_witness :
  let r := Sample.request "PUT" "/echo"
             [list_byte_of_string "ab"; list_byte_of_string "c"] in
  Http.URL_Path r = "/echo"
  /\ Http.Written
       (Ipnlocal.writer
          (Ipnlocal.handleC2N Sample.externals Sample.backend0
             Http.new_writer r))
     = [Http.Bytes (list_byte_of_string "abc")].
Proof.
  intros r. split; [reflexivity|].
  exact (proj1 (echo_is_identity Sample.externals Sample.backend0
                  Http.new_writer r eq_refl)).
Defined.

(** The update of the sample backend is started by a POST. *)
Lemma update_started_iff_witness :
  let r := Sample.request "POST" "/update" [] in
  (Http.Method r = "GET" \/ Http.Method r = "POST")
  /\ exists res : Ipnlocal.C2NUpdateResponse,
       fst (Ipnlocal.handleC2NUpdate Sample.externals Http.new_writer r)
       = Ipnlocal.writeJSON (Ipnlocal.EncUpdate res) Http.new_writer
       /\ Ipnlocal.Started res = true.
Proof.
  intros r.
  assert (Hm : Http.Method r = "GET" \/ Http.Method r = "POST")
    by (right; reflexivity).
  split; [exact Hm|].
  destruct (update_started_iff Sample.externals Http.new_writer r Hm)
    as (res & Hw & _ & _ & Hst & _).
  exists res. split; [exact Hw|].
  apply Hst. split; [reflexivity|].
  split; [reflexivity|]. split; [split; reflexivity|].
  exists "/usr/bin/tailscale". split; [reflexivity|].
  split; [|reflexivity].
  exists Sample.version_json. split; reflexivity.
Defined.

(** ** The path selection state machine: mutual exclusion *)

Section PathSelFacts.
Import Disco PathSel.

Lemma active_count_map (f : Candidate -> Candidate) (cs : list Candidate) :
  (forall c, isActive (f c) = isActive c) ->
  length (List.filter isActive (map f cs))
  = length (List.filter isActive cs).
Proof.
  intros Hf. induction cs as [|c cs IH]; simpl; [reflexivity|].
  rewrite Hf. destruct (isActive c); simpl; congruence.
Qed.

Lemma store_ok_map (f : Candidate -> Candidate) (cs : list Candidate) :
  (forall c, addr (f c) = addr c) ->
  (forall c, isActive (f c) = isActive c) ->
  store_ok cs -> store_ok (map f cs).
Proof.
  intros Ha Hf [Hnd Hcount]. split.
  - rewrite map_map. rewrite (map_ext _ addr Ha). exact Hnd.
  - rewrite active_count_map by exact Hf. exact Hcount.
Qed.

Lemma In_addr_filter (p : Candidate -> bool) (a : AddrPort)
  (cs : list Candidate) :
  In a (map addr (List.filter p cs)) -> In a (map addr cs).
Proof.
  induction cs as [|c cs IH]; simpl; [tauto|].
  destruct (p c); simpl; tauto.
Qed.

Lemma store_ok_filter (p : Candidate -> bool) (cs : list Candidate) :
  store_ok cs -> store_ok (List.filter p cs).
Proof.
  intros [Hnd Hcount]. split.
  - clear Hcount. induction cs as [|c cs IH]; simpl; [constructor|].
    inversion Hnd as [|? ? Hnotin Hnd']; subst.
    destruct (p c); simpl; [|exact (IH Hnd')].
    apply NoDup_cons. split; [|exact (IH Hnd')].
    intros Hin. apply Hnotin. apply list_elem_of_In.
    apply list_elem_of_In in Hin. exact (In_addr_filter p _ cs Hin).
  - apply Nat.le_trans with (2 := Hcount). clear.
    induction cs as [|c cs IH]; simpl; [lia|].
    destruct (p c); simpl; destruct (isActive c); simpl; lia.
Qed.

Lemma known_In (a : AddrPort) (cs : list Candidate) :
  known a cs = true <-> In a (map addr cs).
Proof.
  unfold known. rewrite existsb_exists, in_map_iff. unfold has_addr.
  split; intros (c & H1 & H2).
  - exists c. apply bool_decide_eq_true in H2. tauto.
  - exists c. split; [exact H2|]. apply bool_decide_eq_true. exact H1.
Qed.

(** Activating an address that the store does not hold activates nothing. *)
Lemma activate_absent (a : AddrPort) (cs : list Candidate) :
  ~ In a (map addr cs) -> List.filter isActive (activate a cs) = [].
Proof.
  induction cs as [|c cs IH]; simpl; [reflexivity|].
  intros Hnotin. unfold has_addr at 1.
  rewrite bool_decide_eq_false_2 by tauto.
  apply IH. tauto.
Qed.

Lemma store_ok_activate (a : AddrPort) (cs : list Candidate) :
  store_ok cs -> store_ok (activate a cs).
Proof.
  intros [Hnd _]. split.
  - unfold activate. rewrite map_map. simpl. exact Hnd.
  - induction cs as [|c cs IH]; simpl; [lia|].
    inversion Hnd as [|? ? Hnotin Hnd']; subst.
    unfold has_addr at 1. destruct (bool_decide (addr c = a)) eqn:Hc; simpl.
    + apply bool_decide_eq_true in Hc. subst a.
      fold (activate (addr c) cs).
      rewrite activate_absent; [simpl; lia|].
      intros Hin. apply Hnotin. apply list_elem_of_In. exact Hin.
    + exact (IH Hnd').
Qed.

Lemma store_ok_deactivate (cs : list Candidate) :
  store_ok cs -> store_ok (deactivate cs).
Proof.
  intros [Hnd _]. split.
  - unfold deactivate. rewrite map_map. simpl. exact Hnd.
  - clear. induction cs as [|c cs IH]; simpl; [lia|exact IH].
Qed.

Lemma store_ok_AddCandidate (a : AddrPort) (src : SourceTag) (now : Z)
  (cs : list Candidate) :
  store_ok cs -> store_ok (AddCandidate a src now cs).
Proof.
  intros Hok. unfold AddCandidate.
  destruct (known a cs) eqn:Hk.
  - apply store_ok_map; [| |exact Hok]; intros c; destruct (has_addr a c);
      reflexivity.
  - destruct Hok as [Hnd Hcount]. split.
    + rewrite map_app. simpl. apply NoDup_app. split; [exact Hnd|].
      split; [|apply NoDup_singleton].
      intros x Hx Hx'. apply list_elem_of_In in Hx.
      apply list_elem_of_In in Hx'. destruct Hx' as [<-|[]].
      apply known_In in Hx. congruence.
    + rewrite List.filter_app. simpl. rewrite length_app. simpl. lia.
Qed.

Lemma store_ok_mark_validated (a : AddrPort) (r now : Z)
  (cs : list Candidate) :
  store_ok cs -> store_ok (mark_validated a r now cs).
Proof.
  apply store_ok_map; intros c; destruct (has_addr a c); reflexivity.
Qed.

Lemma store_ok_reprobe (cs : list Candidate) :
  store_ok cs -> store_ok (reprobe cs).
Proof. apply store_ok_map; reflexivity. Qed.

Lemma store_ok_reject (a : AddrPort) (cs : list Candidate) :
  store_ok cs -> store_ok (reject a cs).
Proof.
  intros Hok. unfold reject.
  apply store_ok_map; [| |apply store_ok_filter; exact Hok]; intros c;
    destruct (has_addr a c); reflexivity.
Qed.

Create HintDb store.

#[local] Hint Resolve store_ok_activate store_ok_deactivate
  store_ok_AddCandidate store_ok_mark_validated store_ok_reprobe
  store_ok_reject store_ok_filter : store.

(** Every transition of a peer's machine keeps its store in order. *)
Lemma step_store_ok (m : Machine) (ev : Event) :
  store_ok (candidates m) -> store_ok (candidates (step m ev)).
Proof.
  intros Hok.
  destruct ev as [a src now | a purpose r now | a purpose | | olderThan];
    simpl.
  - auto with store.
  - unfold on_pong. repeat case_match; simpl; auto with store.
  - unfold on_probe_failed. repeat case_match; simpl; auto with store.
  - case_match; simpl; auto with store.
  - auto with store.
Qed.

Lemma engine_step_store_ok (E : gmap string Machine) (i : Input) :
  (forall p m, E !! p = Some m -> store_ok (candidates m)) ->
  forall p m, engine_step E i !! p = Some m -> store_ok (candidates m).
Proof.
  intros HE p m. destruct i as [q | q | q ev]; simpl.
  - destruct (E !! q) eqn:Hq; [apply HE|].
    destruct (decide (q = p)) as [->|Hne].
    + rewrite lookup_insert_eq. intros [= <-]. split; [constructor|simpl; lia].
    + rewrite lookup_insert_ne by exact Hne. apply HE.
  - destruct (decide (q = p)) as [->|Hne].
    + rewrite lookup_delete_eq. discriminate.
    + rewrite lookup_delete_ne by exact Hne. apply HE.
  - destruct (E !! q) as [mq|] eqn:Hq; [|apply HE].
    destruct (decide (q = p)) as [->|Hne].
    + rewrite lookup_insert_eq. intros [= <-].
      apply step_store_ok. exact (HE p mq Hq).
    + rewrite lookup_insert_ne by exact Hne. apply HE.
Qed.

Lemma fold_store_ok (inputs : list Input) (E : gmap string Machine) :
  (forall p m, E !! p = Some m -> store_ok (candidates m)) ->
  forall p m,
    fold_left engine_step inputs E !! p = Some m -> store_ok (candidates m).
Proof.
  revert E. induction inputs as [|i inputs IH]; intros E HE; simpl.
  - exact HE.
  - apply IH. apply engine_step_store_ok. exact HE.
Qed.

Lemma direct_active_count (m : Machine) :
  (length (List.filter (direct_active m) (candidates m))
   <= length (List.filter isActive (candidates m)))%nat.
Proof.
  unfold direct_active. generalize (candidates m) as cs.
  induction cs as [|c cs IH]; simpl; [lia|].
  destruct (path m); simpl in *; destruct (isActive c); simpl; lia.
Qed.

(** Two members of a list that has at most one element passing a test, both
    passing it, are the same. *)
Lemma filter_at_most_one {A} (f : A -> bool) (l : list A) (x y : A) :
  (length (List.filter f l) <= 1)%nat ->
  In x l -> In y l -> f x = true -> f y = true -> x = y.
Proof.
  intros Hlen Hx Hy Hfx Hfy.
  assert (Hx' : In x (List.filter f l)) by (apply filter_In; tauto).
  assert (Hy' : In y (List.filter f l)) by (apply filter_In; tauto).
  destruct (List.filter f l) as [|z [|z' l']]; simpl in *; [tauto| |lia].
  destruct Hx' as [<-|[]]. destruct Hy' as [<-|[]]. reflexivity.
Qed.

(** C7: in every state that the engine reaches from the empty peer table,
    whatever the inputs, each peer has at most one Direct-active candidate:
    the Direct-active candidates of its machine number at most one, and two
    candidates of its store that are both Direct-active are the same. *)
Theorem direct_active_mutual_exclusion (inputs : list Input) (p : string)
  (m : Machine) :
  run inputs !! p = Some m ->
  (length (List.filter (direct_active m) (candidates m)) <= 1)%nat
  /\ forall c1 c2 : Candidate,
       In c1 (candidates m) -> In c2 (candidates m) ->
       direct_active m c1 = true -> direct_active m c2 = true -> c1 = c2.
Proof.
  intros Hm.
  assert (Hok : store_ok (candidates m)).
  { apply (fold_store_ok inputs ∅) with (p := p); [|exact Hm].
    intros q mq Hq. rewrite lookup_empty in Hq. discriminate. }
  assert (Hcount :
    (length (List.filter (direct_active m) (candidates m)) <= 1)%nat).
  { destruct Hok as [_ Hact]. pose proof (direct_active_count m). lia. }
  split; [exact Hcount|].
  intros c1 c2. apply filter_at_most_one. exact Hcount.
Qed.

End PathSelFacts.

(** After the sample inputs the peer is on a direct path through the second
    candidate, the first one having been active before. *)
Lemma direct_active_mutual_exclusion_witness :
  exists m : PathSel.Machine,
    PathSel.run Sample.inputs !! "peer1" = Some m
    /\ PathSel.path m = PathSel.Direct
    /\ map (fun c => (Disco.port (PathSel.addr c), PathSel.isActive c))
         (PathSel.candidates m)
       = [(41641, false); (3478, true)]
    /\ (length (List.filter (PathSel.direct_active m) (PathSel.candidates m))
        <= 1)%nat.
Proof.
  destruct (PathSel.run Sample.inputs !! "peer1") as [m|] eqn:Hm;
    [|vm_compute in Hm; discriminate Hm].
  exists m. split; [reflexivity|].
  pose proof (direct_active_mutual_exclusion Sample.inputs "peer1" m Hm)
    as [Hcount _].
  vm_compute in Hm. injection Hm as <-.
  split; [reflexivity|]. split; [reflexivity|]. exact Hcount.
Defined.

(** ** The disco codec: round trip *)

Section DiscoFacts.
Import Http Disco.

Lemma Z_of_byte_of_Z (z : Z) : 0 <= z < 256 -> Z_of_byte (byte_of_Z z) = z.
Proof.
  intros Hz. unfold Z_of_byte, byte_of_Z.
  rewrite Z.mod_small by exact Hz.
  destruct (Byte.of_N (Z.to_N z)) as [b|] eqn:Hb.
  - rewrite (Byte.to_of_N _ Hb). lia.
  - pose proof (Byte.to_of_N_option_map (Z.to_N z)) as H.
    rewrite Hb in H. simpl in H.
    destruct (N.leb_spec (Z.to_N z) 255) as [_|Hgt]; [discriminate H|lia].
Qed.

Lemma purpose_of_tag_purpose_tag (p : Purpose) :
  purpose_of_tag (Z_of_byte (byte_of_Z (purpose_tag p))) = Some p.
Proof. destruct p; reflexivity. Qed.

Lemma encode_addr_length (a : AddrPort) :
  valid_addr a -> length (encode_addr a) = addrLen.
Proof.
  intros [Hip _]. unfold encode_addr. rewrite length_app, Hip. reflexivity.
Qed.

Lemma decode_encode_addr (a : AddrPort) :
  valid_addr a -> decode_addr (encode_addr a) = Some a.
Proof.
  intros [Hip Hport]. unfold decode_addr, encode_addr.
  rewrite <- Hip, drop_app_length, take_app_length.
  rewrite !Z_of_byte_of_Z.
  - destruct a as [i p]. simpl. f_equal. f_equal.
    pose proof (Z.div_mod p 256). lia.
  - apply Z.mod_pos_bound. lia.
  - split; [apply Z.div_pos; lia|apply Z.div_lt_upper_bound; lia].
Qed.

Lemma concat_encode_length (cands : list AddrPort) :
  Forall valid_addr cands ->
  length (concat (map encode_addr cands)) = (length cands * addrLen)%nat.
Proof.
  induction 1 as [|a cands Ha _ IH]; simpl; [reflexivity|].
  rewrite length_app, IH, (encode_addr_length a Ha). reflexivity.
Qed.

Lemma decode_encode_addrs (cands : list AddrPort) :
  Forall valid_addr cands ->
  decode_addrs (length cands) (concat (map encode_addr cands)) = Some cands.
Proof.
  induction 1 as [|a cands Ha _ IH]; simpl; [reflexivity|].
  rewrite <- (encode_addr_length a Ha), take_app_length, drop_app_length.
  rewrite (decode_encode_addr a Ha). simpl. rewrite IH. reflexivity.
Qed.

Section RoundTrip.
Variable tokenLen : nat.
Variable tagLen : nat.
Variable auth : bytes -> bytes -> bytes.
Hypothesis auth_length : forall key data, length (auth key data) = tagLen.

Lemma parse_payload (m : Message) :
  valid tokenLen m -> parse tokenLen (payload m) = inr m.
Proof.
  destruct m as [token purpose | token src | cands];
    unfold parse, payload, valid; cbv iota.
  - intros Htok. change (Z_of_byte (byte_of_Z kindPing) =? kindPing) with true.
    simpl. rewrite <- Htok, drop_app_length, take_app_length.
    rewrite purpose_of_tag_purpose_tag. reflexivity.
  - intros [Htok Hsrc].
    change (Z_of_byte (byte_of_Z kindPong) =? kindPing) with false.
    change (Z_of_byte (byte_of_Z kindPong) =? kindPong) with true.
    simpl. rewrite bool_decide_eq_true_2
      by (rewrite length_app, Htok, (encode_addr_length src Hsrc);
          reflexivity).
    rewrite <- Htok, drop_app_length, take_app_length.
    rewrite (decode_encode_addr src Hsrc). reflexivity.
  - intros Hcands.
    change (Z_of_byte (byte_of_Z kindCallMeMaybe) =? kindPing) with false.
    change (Z_of_byte (byte_of_Z kindCallMeMaybe) =? kindPong) with false.
    change (Z_of_byte (byte_of_Z kindCallMeMaybe) =? kindCallMeMaybe)
      with true.
    cbv iota. rewrite (concat_encode_length cands Hcands).
    rewrite Nat.div_mul by discriminate.
    rewrite (decode_encode_addrs cands Hcands). reflexivity.
Qed.

(** The two decode-time errors: a frame too short to hold a kind and an
    authenticator is malformed, and a Ping whose purpose tag is outside the
    closed set has an unknown purpose. *)
Lemma decode_truncated (key frame : bytes) :
  (length frame < 1 + tagLen)%nat ->
  decode tokenLen tagLen auth key frame = inl MalformedMessage.
Proof.
  intros Hlen. unfold decode. rewrite bool_decide_eq_true_2 by exact Hlen.
  reflexivity.
Qed.

Lemma parse_unknown_purpose (token : bytes) (t : Z) :
  length token = tokenLen -> 3 <= t < 256 ->
  parse tokenLen (byte_of_Z kindPing :: token ++ [byte_of_Z t])
  = inl UnknownPurpose.
Proof.
  intros Htok Ht. unfold parse.
  change (Z_of_byte (byte_of_Z kindPing) =? kindPing) with true. cbv iota.
  rewrite <- Htok, drop_app_length. rewrite Z_of_byte_of_Z by lia.
  unfold purpose_of_tag, Magicsock.pingDiscovery, Magicsock.pingHeartbeat,
    Magicsock.pingCLI.
  destruct (Z.eqb_spec t 0); [lia|]. destruct (Z.eqb_spec t 1); [lia|].
  destruct (Z.eqb_spec t 2); [lia|]. reflexivity.
Qed.

Lemma payload_nonempty (m : Message) : (1 <= length (payload m))%nat.
Proof. destruct m; simpl; lia. Qed.

(** C6: decoding the encoding of a valid Ping, Pong or CallMeMaybe message,
    under the same key, gives the message back, with all its fields. *)
Theorem codec_round_trip (key : bytes) (m : Message) :
  valid tokenLen m ->
  decode tokenLen tagLen auth key (encode auth key m) = inr m.
Proof.
  intros Hvalid. unfold decode, encode.
  pose proof (payload_nonempty m) as Hlen.
  rewrite length_app, auth_length.
  rewrite bool_decide_eq_false_2 by lia.
  replace (length (payload m) + tagLen - tagLen)%nat
    with (length (payload m)) by lia.
  rewrite take_app_length, drop_app_length.
  rewrite bool_decide_eq_true_2 by reflexivity.
  apply parse_payload. exact Hvalid.
Qed.

End RoundTrip.
End DiscoFacts.

(** A Pong under the sample authenticator. *)
Lemma codec_round_trip_witness :
  let m := Disco.Pong Sample.token Sample.peerB in
  Disco.valid 12 m
  /\ Disco.decode 12 2 Sample.auth [] (Disco.encode Sample.auth [] m) = inr m.
Proof.
  intros m.
  assert (Hvalid : Disco.valid 12 m).
  { split; [reflexivity|]. split; [reflexivity|]. simpl. lia. }
  split; [exact Hvalid|].
  exact (codec_round_trip 12 2 Sample.auth (fun key data => eq_refl) [] m
           Hvalid).
Defined.

(** ** Further properties of c2n.go *)

Section UpdateFacts.
Import Http Ipnlocal Effects.
Context {B PrefsView SSHReq SSHResp : Type}.
Variable e : Externals B PrefsView SSHReq SSHResp.

Lemma findCmdTailscale_cases (cmd : string) :
  findCmdTailscale e = Ok cmd
  <-> exists self : string,
        os_Executable e = Ok self
        /\ ((GOOS e = "linux" /\ self = "/usr/sbin/tailscaled"
             /\ cmd = "/usr/bin/tailscale")
            \/ (GOOS e = "windows"
                /\ cmd = filepath_Join e (filepath_Dir e self) "tailscale.exe"
                /\ Stat_IsRegular e cmd = true)).
Proof.
  unfold findCmdTailscale.
  destruct (os_Executable e) as [self|err].
  2:{ split; [discriminate|intros (self & H & _); discriminate H]. }
  destruct (String.eqb_spec (GOOS e) "linux") as [Hlinux|Hlinux].
  - destruct (String.eqb_spec self "/usr/sbin/tailscaled") as [Hself|Hself].
    + split.
      * intros [= <-]. exists self. split; [reflexivity|]. left. tauto.
      * intros (self' & [= <-] & [(_ & _ & ->) | (Hw & _)]);
          [reflexivity|]. rewrite Hlinux in Hw. discriminate Hw.
    + split; [discriminate|].
      intros (self' & [= <-] & [(_ & Hs & _) | (Hw & _)]);
        [contradiction|]. rewrite Hlinux in Hw. discriminate Hw.
  - destruct (String.eqb_spec (GOOS e) "windows") as [Hwin|Hwin].
    + destruct (Stat_IsRegular e
                  (filepath_Join e (filepath_Dir e self) "tailscale.exe"))
        eqn:Hreg.
      * split.
        -- intros [= <-]. exists self. split; [reflexivity|]. right. tauto.
        -- intros (self' & [= <-] & [(Hl & _) | (_ & -> & _)]);
             [contradiction|reflexivity].
      * split; [discriminate|].
        intros (self' & [= <-] & [(Hl & _) | (_ & -> & Hr)]);
          [contradiction|]. rewrite Hreg in Hr. discriminate Hr.
    + split; [discriminate|].
      intros (self' & _ & [(Hl & _) | (Hw & _)]); contradiction.
Qed.

Lemma handleC2NUpdate_eq (w : W PrefsView SSHResp) (r : Request) :
  handleC2NUpdate e w r
  = if negb (String.eqb (Method r) "GET")
       && negb (String.eqb (Method r) "POST")
    then (Error w "bad method" StatusMethodNotAllowed, [])
    else
      let out :=
        if String.eqb (Method r) "GET" then (initial_response e, [])
        else update_post e (initial_response e) in
      (writeJSON (EncUpdate (fst out)) w, snd out).
Proof.
  unfold handleC2NUpdate, initial_response, writeJSON.
  destruct (negb (String.eqb (Method r) "GET")
            && negb (String.eqb (Method r) "POST")); [reflexivity|].
  destruct (String.eqb (Method r) "GET"); [reflexivity|].
  destruct (update_post e _). reflexivity.
Qed.

Lemma method_cases (r : Request) :
  (String.eqb (Method r) "GET" = true /\ String.eqb (Method r) "POST" = false
   /\ Method r = "GET")
  \/ (String.eqb (Method r) "GET" = false
      /\ String.eqb (Method r) "POST" = true /\ Method r = "POST")
  \/ (String.eqb (Method r) "GET" = false
      /\ String.eqb (Method r) "POST" = false
      /\ Method r <> "GET" /\ Method r <> "POST").
Proof.
  destruct (String.eqb_spec (Method r) "GET") as [Hg|Hg];
    destruct (String.eqb_spec (Method r) "POST") as [Hp|Hp]; try tauto.
  rewrite Hg in Hp. discriminate Hp.
Qed.

(** The programs that [update_post] runs: none, the version command of the
    binary found, or that command followed by the update command. *)
Lemma update_post_procs (res : C2NUpdateResponse) :
  snd (update_post e res) = []
  \/ exists cmdTS : string,
       findCmdTailscale e = Ok cmdTS
       /\ Enabled res = true /\ Supported res = true
       /\ (snd (update_post e res)
           = [Exec_Output cmdTS ["version"; "--json"]]
           \/ (snd (update_post e res)
               = [Exec_Output cmdTS ["version"; "--json"];
                  Exec_Start cmdTS ["update"; "--yes"]]
               /\ exists out : bytes,
                    exec_Output e cmdTS ["version"; "--json"] = Ok out
                    /\ json_Unmarshal_Long e out = Ok (version_Long e))).
Proof.
  unfold update_post.
  destruct (Enabled res); simpl; [|left; reflexivity].
  destruct (Supported res); simpl; [|left; reflexivity].
  destruct (findCmdTailscale e) as [cmdTS|err]; simpl; [|left; reflexivity].
  right. exists cmdTS. split; [reflexivity|]. split; [reflexivity|].
  split; [reflexivity|].
  destruct (exec_Output e cmdTS ["version"; "--json"]) as [out|err]; simpl;
    [|left; reflexivity].
  destruct (json_Unmarshal_Long e out) as [long|err] eqn:Hjson; simpl;
    [|left; reflexivity].
  destruct (String.eqb_spec long (version_Long e)) as [->|Hver]; simpl;
    [|left; reflexivity].
  destruct (exec_Start e cmdTS ["update"; "--yes"]); simpl;
    [left; reflexivity|].
  right. split; [reflexivity|]. exists out. split; [reflexivity|exact Hjson].
Qed.

(** X1: [findCmdTailscale] returns a binary in two cases only: on linux,
    when the daemon is /usr/sbin/tailscaled, it is /usr/bin/tailscale; on
    windows it is tailscale.exe in the directory of the daemon, when that
    is a regular file. *)
Theorem findCmdTailscale_ok_iff (cmd : string) :
  findCmdTailscale e = Ok cmd
  <-> exists self : string,
        os_Executable e = Ok self
        /\ ((GOOS e = "linux" /\ self = "/usr/sbin/tailscaled"
             /\ cmd = "/usr/bin/tailscale")
            \/ (GOOS e = "windows"
                /\ cmd = filepath_Join e (filepath_Dir e self) "tailscale.exe"
                /\ Stat_IsRegular e cmd = true)).
Proof. exact (findCmdTailscale_cases cmd). Qed.

(** A started update leaves [Err] as it was. *)
Lemma update_post_started_Err (res : C2NUpdateResponse) :
  Started res = false ->
  Started (fst (update_post e res)) = true ->
  Err (fst (update_post e res)) = Err res.
Proof.
  intros Hs. unfold update_post.
  repeat match goal with
         | |- context [match ?x with _ => _ end] => destruct x; simpl
         end;
    try reflexivity; rewrite Hs; discriminate.
Qed.

(** X2: on a fresh writer [handleC2NUpdate] answers a method other than
    GET and POST with status 405 and the text "bad method", running
    nothing; a GET or a POST always gets status 200 and one JSON document,
    also when the update fails, with the same [Enabled] and [Supported]
    for both methods, and [Err] is empty exactly for a GET and for a
    started update. *)
Theorem update_response_shape (r : Request) :
  (Method r <> "GET" -> Method r <> "POST" ->
   Status (fst (handleC2NUpdate e new_writer r)) = Some StatusMethodNotAllowed
   /\ Written (fst (handleC2NUpdate e new_writer r))
      = [Text ("bad method" +:+ nl)]
   /\ snd (handleC2NUpdate e new_writer r) = [])
  /\ (Method r = "GET" \/ Method r = "POST" ->
      Status (fst (handleC2NUpdate e new_writer r)) = Some StatusOK
      /\ Header (fst (handleC2NUpdate e new_writer r)) !! "Content-Type"
         = Some "application/json"
      /\ exists res : C2NUpdateResponse,
           Written (fst (handleC2NUpdate e new_writer r))
           = [JSON (EncUpdate res)]
           /\ Enabled res = Enabled (initial_response e)
           /\ Supported res = Supported (initial_response e)
           /\ (Err res = EmptyString
               <-> Method r = "GET" \/ Started res = true)).
Proof.
  rewrite handleC2NUpdate_eq.
  destruct (method_cases r)
    as [(Hg & Hp & Hm) | [(Hg & Hp & Hm) | (Hg & Hp & Hng & Hnp)]];
    rewrite Hg, Hp; simpl.
  - split; [intros Hn; contradiction|]. intros _.
    split; [reflexivity|]. split; [apply lookup_insert_eq|].
    eexists. split; [reflexivity|]. simpl. tauto.
  - split; [intros _ Hn; contradiction|]. intros _.
    split; [reflexivity|]. split; [apply lookup_insert_eq|].
    exists (fst (update_post e (initial_response e))).
    destruct (update_post_spec e (initial_response e) eq_refl)
      as (Hen & Hsu & _ & Herr & _).
    pose proof (update_post_started_Err (initial_response e) eq_refl) as Hst.
    split; [reflexivity|]. split; [exact Hen|]. split; [exact Hsu|].
    split.
    + intros He. right.
      destruct (Started (fst (update_post e (initial_response e))));
        [reflexivity|]. exfalso. apply Herr; [reflexivity|exact He].
    + intros [Hget | Hs]; [rewrite Hm in Hget; discriminate Hget|].
      rewrite (Hst Hs). reflexivity.
  - split; [|intros [H | H]; contradiction]. intros _ _.
    repeat split.
Qed.

Lemma update_procs_shape_aux (r : Request) (w : W PrefsView SSHResp) :
  snd (handleC2NUpdate e w r) = []
  \/ (Method r = "POST" /\ AllowsRemoteUpdate e = true
      /\ Supported (initial_response e) = true
      /\ exists cmdTS : string,
           findCmdTailscale e = Ok cmdTS
           /\ (snd (handleC2NUpdate e w r)
               = [Exec_Output cmdTS ["version"; "--json"]]
               \/ (snd (handleC2NUpdate e w r)
                   = [Exec_Output cmdTS ["version"; "--json"];
                      Exec_Start cmdTS ["update"; "--yes"]]
                   /\ exists out : bytes,
                        exec_Output e cmdTS ["version"; "--json"] = Ok out
                        /\ json_Unmarshal_Long e out
                           = Ok (version_Long e)))).
Proof.
  rewrite handleC2NUpdate_eq.
  destruct (method_cases r)
    as [(Hg & Hp & Hm) | [(Hg & Hp & Hm) | (Hg & Hp & Hng & Hnp)]];
    rewrite Hg, Hp; simpl; [left; reflexivity| |left; reflexivity].
  destruct (update_post_procs (initial_response e))
    as [Hnil | (cmdTS & Hfind & Hen & Hsu & Hshape)]; [left; exact Hnil|].
  right. split; [exact Hm|]. split; [exact Hen|]. split; [exact Hsu|].
  exists cmdTS. split; [exact Hfind|exact Hshape].
Qed.

(** X3: the programs that [handleC2NUpdate] runs are none, or the version
    command of the binary that [findCmdTailscale] returns, or that command
    followed by the update command of the same binary; the latter only for
    a POST with remote update enabled and supported, and only when the
    version command reported the long version of the daemon. *)
Theorem update_procs_shape (w : W PrefsView SSHResp) (r : Request) :
  snd (handleC2NUpdate e w r) = []
  \/ (Method r = "POST" /\ AllowsRemoteUpdate e = true
      /\ Supported (initial_response e) = true
      /\ exists cmdTS : string,
           findCmdTailscale e = Ok cmdTS
           /\ (snd (handleC2NUpdate e w r)
               = [Exec_Output cmdTS ["version"; "--json"]]
               \/ (snd (handleC2NUpdate e w r)
                   = [Exec_Output cmdTS ["version"; "--json"];
                      Exec_Start cmdTS ["update"; "--yes"]]
                   /\ exists out : bytes,
                        exec_Output e cmdTS ["version"; "--json"] = Ok out
                        /\ json_Unmarshal_Long e out
                           = Ok (version_Long e)))).
Proof. exact (update_procs_shape_aux r w). Qed.

End UpdateFacts.

Section HandlerFacts.
Import Http Ipnlocal Effects.
Context {B PrefsView SSHReq SSHResp : Type}.
Variable e : Externals B PrefsView SSHReq SSHResp.

(** Destructs what the cases of the path switch branch on. *)
Ltac split_cases :=
  repeat match goal with
         | |- context [String.eqb ?x ?y] => destruct (String.eqb x y)
         | |- context [match ?x with _ => _ end] => destruct x
         end.

(** Only the /update case runs programs. *)
Lemma handleC2N_procs (b : B) (w : W PrefsView SSHResp) (r : Request) :
  procs (handleC2N e b w r)
  = if String.eqb (URL_Path r) "/update"
    then snd (handleC2NUpdate e w r)
    else [].
Proof.
  unfold handleC2N.
  destruct (String.eqb_spec (URL_Path r) "/echo") as [Heq|_];
    [rewrite Heq; reflexivity|].
  destruct (String.eqb (URL_Path r) "/update");
    [destruct (handleC2NUpdate e w r); reflexivity|].
  split_cases; reflexivity.
Qed.

Lemma handleC2N_readonly (b : B) (w : W PrefsView SSHResp) (r : Request) :
  ~ In (URL_Path r) mutating_paths -> backend (handleC2N e b w r) = b.
Proof.
  intros Hnot. unfold handleC2N.
  repeat match goal with
         | |- context [String.eqb (URL_Path r) ?s] =>
             destruct (String.eqb_spec (URL_Path r) s) as [Heq|_];
             [first
                [exfalso; apply Hnot; rewrite Heq; unfold mutating_paths;
                 simpl; tauto
                |clear Heq; split_cases; reflexivity]
             |]
         end.
  reflexivity.
Qed.

(** X4: the [os/exec] calls of c2n.go itself (the two [exec.Command]
    calls of [handleC2NUpdate]; what the callees defined elsewhere may run
    is not recorded in [procs]): whatever the request, each of them runs
    the tailscale binary at one of two fixed places, /usr/bin/tailscale on
    linux or tailscale.exe beside the daemon on windows, as
    [version --json] or as [update --yes]; nothing in the request chooses
    the program or its arguments. *)
Theorem own_exec_calls_run_tailscale (b : B) (w : W PrefsView SSHResp)
  (r : Request) (x : Exec) :
  In x (procs (handleC2N e b w r)) ->
  (x = Exec_Output (exec_name x) ["version"; "--json"]
   \/ x = Exec_Start (exec_name x) ["update"; "--yes"])
  /\ exists self : string,
       os_Executable e = Ok self
       /\ ((GOOS e = "linux" /\ self = "/usr/sbin/tailscaled"
            /\ exec_name x = "/usr/bin/tailscale")
           \/ (GOOS e = "windows"
               /\ exec_name x
                  = filepath_Join e (filepath_Dir e self) "tailscale.exe"
               /\ Stat_IsRegular e (exec_name x) = true)).
Proof.
  rewrite handleC2N_procs.
  destruct (String.eqb (URL_Path r) "/update"); [|intros []].
  rewrite handleC2NUpdate_eq.
  destruct (method_cases r)
    as [(Hg & Hp & _) | [(Hg & Hp & _) | (Hg & Hp & _)]];
    rewrite Hg, Hp; simpl; try solve [intros []].
  destruct (update_post_procs e (initial_response e))
    as [-> | (cmdTS & Hfind & _ & _ & [-> | [-> _]])]; simpl;
    try solve [intros []].
  - intros [<- | []]. simpl. split; [left; reflexivity|].
    apply (findCmdTailscale_cases e). exact Hfind.
  - intros [<- | [<- | []]]; simpl;
      (split; [tauto|apply (findCmdTailscale_cases e); exact Hfind]).
Qed.

(** X5: the [os/exec] calls of c2n.go itself are reached only by a POST
    to /update on a host where remote update is enabled and supported: on
    every other path or method [handleC2N] gets to neither
    [exec.Command] call, and a request that does leaves the backend as it
    was. Processes that callees defined elsewhere may start are not
    recorded in [procs]. *)
Theorem own_exec_calls_need_update_post (b : B) (w : W PrefsView SSHResp)
  (r : Request) :
  procs (handleC2N e b w r) <> [] ->
  URL_Path r = "/update" /\ Method r = "POST"
  /\ AllowsRemoteUpdate e = true
  /\ NewUpdater_err e = None /\ IsMacSysExt e = false
  /\ backend (handleC2N e b w r) = b.
Proof.
  rewrite handleC2N_procs.
  destruct (String.eqb_spec (URL_Path r) "/update") as [Hpath|_];
    [|intros H; contradiction].
  intros Hne. split; [exact Hpath|].
  assert (Hb : backend (handleC2N e b w r) = b).
  { apply handleC2N_readonly. rewrite Hpath. unfold mutating_paths. simpl.
    intros [H | [H | [H | [H | []]]]]; discriminate H. }
  destruct (update_procs_shape_aux e r w) as [Hnil | (Hm & Hen & Hsu & _)];
    [contradiction|].
  split; [exact Hm|]. split; [exact Hen|].
  apply (supported_iff e) in Hsu. tauto.
Qed.

(** X7: outside the four cases that call a method which may change the
    backend (/logtail/flush, /debug/component-logging, /ssh/usernames and
    /sockstats) the handler leaves the backend exactly as it found it,
    whatever the callees do: /echo, /update, the other debug paths and
    unknown paths are read-only. *)
Theorem readonly_paths (b : B) (w : W PrefsView SSHResp) (r : Request) :
  ~ In (URL_Path r) mutating_paths ->
  backend (handleC2N e b w r) = b.
Proof. exact (handleC2N_readonly b w r). Qed.

(** X8: a request that the handler answers, on a fresh writer, with status
    400, 405 or 501 has changed nothing: the backend is as it was and no
    program has been run. *)
Theorem rejected_requests_do_nothing (b : B) (r : Request) (code : Z) :
  In code rejections ->
  Status (writer (handleC2N e b new_writer r)) = Some code ->
  backend (handleC2N e b new_writer r) = b
  /\ procs (handleC2N e b new_writer r) = [].
Proof.
  intros Hin. unfold handleC2N.
  destruct (String.eqb (URL_Path r) "/echo");
    [intros _; split; reflexivity|].
  destruct (String.eqb (URL_Path r) "/update").
  { rewrite handleC2NUpdate_eq.
    destruct (method_cases r)
      as [(Hg & Hp & _) | [(Hg & Hp & _) | (Hg & Hp & _)]];
      rewrite Hg, Hp; simpl; [split; reflexivity| |split; reflexivity].
    intros [= <-]. exfalso.
    destruct Hin as [H | [H | [H | []]]]; discriminate H. }
  split_cases; simpl; intros Hst;
    first
      [split; reflexivity
      |exfalso; injection Hst as <-;
       destruct Hin as [H | [H | [H | []]]]; discriminate H].
Qed.

Lemma int64_small (x : Z) : - 2 ^ 63 <= x < 2 ^ 63 -> Go.int64 x = x.
Proof.
  intros Hx. unfold Go.int64. rewrite Z.mod_small by lia. lia.
Qed.

Lemma int64_wraps (x : Z) :
  2 ^ 63 <= x < 2 ^ 64 -> Go.int64 x = x - 2 ^ 64.
Proof.
  intros Hx. unfold Go.int64.
  replace (x + 2 ^ 63) with (x + 2 ^ 63 - 2 ^ 64 + 1 * 2 ^ 64) by lia.
  rewrite Z_mod_plus_full, Z.mod_small by lia. lia.
Qed.

(** X9: on /debug/component-logging the deadline handed to
    [SetComponentDebugLogging] is one second in the past when [secs] is 0
    (or does not parse), and [secs] seconds from now when [secs] is at most
    9223372036 in absolute value; from there up to twice that, the product
    with [time.Second] overflows and the deadline is in the past. The
    method's error goes into the JSON reply. *)
Theorem component_logging_deadline (b : B) (w : W PrefsView SSHResp)
  (r : Request) :
  URL_Path r = "/debug/component-logging" ->
  exists until : Z,
    backend (handleC2N e b w r)
    = snd (SetComponentDebugLogging e (FormValue r "component") until b)
    /\ writer (handleC2N e b w r)
       = writeJSON
           (EncComponentLogging
              match fst (SetComponentDebugLogging e (FormValue r "component")
                           until b) with
              | Some msg => msg
              | None => EmptyString
              end) w
    /\ (Atoi e (FormValue r "secs") = 0 -> until = clock_Now e b - Second)
    /\ (Atoi e (FormValue r "secs") <> 0 ->
        - max_secs <= Atoi e (FormValue r "secs") <= max_secs ->
        until = clock_Now e b + Atoi e (FormValue r "secs") * Second)
    /\ (max_secs < Atoi e (FormValue r "secs") <= 2 * max_secs ->
        until < clock_Now e b).
Proof.
  intros Hpath. unfold handleC2N. rewrite Hpath. simpl.
  set (secs := Atoi e (FormValue r "secs")).
  set (until := clock_Now e b
                + Go.int64 ((if secs =? 0 then secs - 1 else secs) * Second)).
  exists until.
  destruct (SetComponentDebugLogging e (FormValue r "component") until b)
    as [err b'].
  split; [reflexivity|]. split; [reflexivity|].
  unfold until, max_secs, Second. split; [|split].
  - intros ->. simpl. reflexivity.
  - intros Hnz Hrange. destruct (Z.eqb_spec secs 0) as [|_]; [contradiction|].
    rewrite int64_small by lia. reflexivity.
  - intros Hrange. destruct (Z.eqb_spec secs 0) as [|_]; [lia|].
    rewrite int64_wraps by lia. lia.
Qed.

End HandlerFacts.

(** On windows the binary is looked for beside the daemon. *)
Lemma own_exec_calls_run_tailscale_witness :
  let r := Sample.request "POST" "/update" [] in
  let x := Ipnlocal.Exec_Start "C:\Program Files\Tailscale\tailscale.exe"
             ["update"; "--yes"] in
  In x (Ipnlocal.procs
          (Ipnlocal.handleC2N Hosts.windows Sample.backend0 Http.new_writer r))
  /\ exists self : string,
       Ipnlocal.os_Executable Hosts.windows = Http.Ok self
       /\ Effects.exec_name x
          = Ipnlocal.filepath_Join Hosts.windows
              (Ipnlocal.filepath_Dir Hosts.windows self) "tailscale.exe".
Proof.
  intros r x.
  assert (Hin : In x (Ipnlocal.procs
                        (Ipnlocal.handleC2N Hosts.windows Sample.backend0
                           Http.new_writer r)))
    by (right; left; reflexivity).
  split; [exact Hin|].
  destruct (own_exec_calls_run_tailscale Hosts.windows Sample.backend0
              Http.new_writer r x Hin)
    as (_ & self & Hexe & [(Hl & _) | (_ & Hname & _)]).
  - discriminate Hl.
  - exists self. split; [exact Hexe|exact Hname].
Defined.

(** The sample host reaches both calls for a POST to /update. *)
Lemma own_exec_calls_need_update_post_witness :
  let r := Sample.request "POST" "/update" [] in
  Ipnlocal.procs
    (Ipnlocal.handleC2N Sample.externals Sample.backend0 Http.new_writer r)
  <> []
  /\ Http.URL_Path r = "/update" /\ Http.Method r = "POST".
Proof.
  intros r.
  assert (Hne : Ipnlocal.procs
                  (Ipnlocal.handleC2N Sample.externals Sample.backend0
                     Http.new_writer r) <> []) by discriminate.
  split; [exact Hne|].
  destruct (own_exec_calls_need_update_post Sample.externals Sample.backend0
              Http.new_writer r Hne) as (Hp & Hm & _).
  split; [exact Hp|exact Hm].
Defined.

(** A POST to /debug/prefs, which is not one of the four. *)
Lemma readonly_paths_witness :
  let r := Sample.request "POST" "/debug/prefs" [] in
  ~ In (Http.URL_Path r) Effects.mutating_paths
  /\ Ipnlocal.backend
       (Ipnlocal.handleC2N Sample.externals Sample.backend0 Http.new_writer r)
     = Sample.backend0.
Proof.
  intros r.
  assert (Hnot : ~ In (Http.URL_Path r) Effects.mutating_paths).
  { simpl. intros [H | [H | [H | [H | []]]]]; discriminate H. }
  split; [exact Hnot|].
  exact (readonly_paths Sample.externals Sample.backend0 Http.new_writer r
           Hnot).
Defined.

(** A POST to /ssh/usernames whose body does not decode. *)
Lemma rejected_requests_do_nothing_witness :
  let r := Sample.request "POST" "/ssh/usernames" [] in
  In 400 Effects.rejections
  /\ Http.Status
       (Ipnlocal.writer
          (Ipnlocal.handleC2N Hosts.disabled Sample.backend0
             Http.new_writer r)) = Some 400
  /\ Ipnlocal.backend
       (Ipnlocal.handleC2N Hosts.disabled Sample.backend0 Http.new_writer r)
     = Sample.backend0.
Proof.
  intros r.
  assert (Hin : In 400 Effects.rejections) by (left; reflexivity).
  split; [exact Hin|]. split; [reflexivity|].
  exact (proj1 (rejected_requests_do_nothing Hosts.disabled Sample.backend0
                  r 400 Hin eq_refl)).
Defined.

(** With no [secs] in the form the deadline is one second before now. *)
Lemma component_logging_deadline_witness :
  let r := Hosts.logging_request EmptyString in
  Http.URL_Path r = "/debug/component-logging"
  /\ Sample.logUntil
       (Ipnlocal.backend
          (Ipnlocal.handleC2N Sample.externals Sample.backend0
             Http.new_writer r)) !! "magicsock"
     = Some (1700000000000000000 - 1000000000).
Proof.
  intros r. split; [reflexivity|].
  destruct (component_logging_deadline Sample.externals Sample.backend0
              Http.new_writer r eq_refl) as (until & Hb & _ & Hzero & _).
  rewrite Hb, (Hzero eq_refl). reflexivity.
Defined.

(** ** What the error message of an update says *)

Section Diagnosis.
Import Http Ipnlocal Effects.
Context {B PrefsView SSHReq SSHResp : Type}.
Variable e : Externals B PrefsView SSHReq SSHResp.

Lemma prefix_nil (s : string) : String.prefix EmptyString s = true.
Proof. destruct s; reflexivity. Qed.

Lemma update_post_diagnosis (res : C2NUpdateResponse) :
  Err res = EmptyString ->
  (Err (fst (update_post e res)) = "not enabled" <-> Enabled res = false)
  /\ (Err (fst (update_post e res)) = "not supported"
      <-> Enabled res = true /\ Supported res = false)
  /\ (String.prefix "failed to find cmd/tailscale binary: "
        (Err (fst (update_post e res))) = true
      <-> Enabled res = true /\ Supported res = true
          /\ ((exists err : string, findCmdTailscale e = Fail err)
              \/ exists (cmdTS err : string),
                   findCmdTailscale e = Ok cmdTS
                   /\ exec_Output e cmdTS ["version"; "--json"] = Fail err))
  /\ (Err (fst (update_post e res))
      = "invalid JSON from cmd/tailscale version --json"
      <-> Enabled res = true /\ Supported res = true
          /\ exists (cmdTS : string) (out : bytes) (err : string),
               findCmdTailscale e = Ok cmdTS
               /\ exec_Output e cmdTS ["version"; "--json"] = Ok out
               /\ json_Unmarshal_Long e out = Fail err)
  /\ (Err (fst (update_post e res)) = "cmd/tailscale version mismatch"
      <-> Enabled res = true /\ Supported res = true
          /\ exists (cmdTS : string) (out : bytes) (long : string),
               findCmdTailscale e = Ok cmdTS
               /\ exec_Output e cmdTS ["version"; "--json"] = Ok out
               /\ json_Unmarshal_Long e out = Ok long
               /\ long <> version_Long e)
  /\ (String.prefix "failed to start cmd/tailscale update: "
        (Err (fst (update_post e res))) = true
      <-> Enabled res = true /\ Supported res = true
          /\ exists (cmdTS : string) (out : bytes) (err : string),
               findCmdTailscale e = Ok cmdTS
               /\ exec_Output e cmdTS ["version"; "--json"] = Ok out
               /\ json_Unmarshal_Long e out = Ok (version_Long e)
               /\ exec_Start e cmdTS ["update"; "--yes"] = Some err).
Proof.
  intros Herr. unfold update_post.
  destruct (Enabled res) eqn:Hen; simpl.
  2:{ repeat apply conj; diagnose prefix_nil. }
  destruct (Supported res) eqn:Hsu; simpl.
  2:{ repeat apply conj; diagnose prefix_nil. }
  destruct (findCmdTailscale e) as [cmdTS|err] eqn:Hfind; simpl.
  2:{ repeat apply conj; diagnose prefix_nil. }
  destruct (exec_Output e cmdTS ["version"; "--json"]) as [out|err] eqn:Hout;
    simpl.
  2:{ repeat apply conj; diagnose prefix_nil. }
  destruct (json_Unmarshal_Long e out) as [long|err] eqn:Hjson; simpl.
  2:{ repeat apply conj; diagnose prefix_nil. }
  destruct (String.eqb_spec long (version_Long e)) as [->|Hver]; simpl.
  2:{ repeat apply conj; diagnose prefix_nil. }
  destruct (exec_Start e cmdTS ["update"; "--yes"]) as [err|] eqn:Hstart;
    simpl.
  { repeat apply conj; diagnose prefix_nil. }
  rewrite Herr. repeat apply conj; diagnose prefix_nil.
Qed.

(** X6: the [Err] of the reply to a POST names the step that failed: "not
    enabled" exactly when remote update is disabled, "not supported" when
    it is enabled and unsupported, the version mismatch and invalid JSON
    messages exactly for those outcomes of the version command, and the
    failed-to-start prefix exactly when [cmd.Start] fails. The
    failed-to-find prefix is ambiguous: it is used when the binary is not
    found and also when the version command of a binary that was found
    fails. *)
Theorem update_error_diagnosis (w : W PrefsView SSHResp) (r : Request) :
  Method r = "POST" ->
  exists res : C2NUpdateResponse,
    fst (handleC2NUpdate e w r) = writeJSON (EncUpdate res) w
    /\ (Err res = "not enabled" <-> AllowsRemoteUpdate e = false)
    /\ (Err res = "not supported"
        <-> AllowsRemoteUpdate e = true
            /\ Supported (initial_response e) = false)
    /\ (String.prefix "failed to find cmd/tailscale binary: " (Err res) = true
        <-> AllowsRemoteUpdate e = true
            /\ Supported (initial_response e) = true
            /\ ((exists err : string, findCmdTailscale e = Fail err)
                \/ exists (cmdTS err : string),
                     findCmdTailscale e = Ok cmdTS
                     /\ exec_Output e cmdTS ["version"; "--json"]
                        = Fail err))
    /\ (Err res = "invalid JSON from cmd/tailscale version --json"
        <-> AllowsRemoteUpdate e = true
            /\ Supported (initial_response e) = true
            /\ exists (cmdTS : string) (out : bytes) (err : string),
                 findCmdTailscale e = Ok cmdTS
                 /\ exec_Output e cmdTS ["version"; "--json"] = Ok out
                 /\ json_Unmarshal_Long e out = Fail err)
    /\ (Err res = "cmd/tailscale version mismatch"
        <-> AllowsRemoteUpdate e = true
            /\ Supported (initial_response e) = true
            /\ exists (cmdTS : string) (out : bytes) (long : string),
                 findCmdTailscale e = Ok cmdTS
                 /\ exec_Output e cmdTS ["version"; "--json"] = Ok out
                 /\ json_Unmarshal_Long e out = Ok long
                 /\ long <> version_Long e)
    /\ (String.prefix "failed to start cmd/tailscale update: " (Err res)
        = true
        <-> AllowsRemoteUpdate e = true
            /\ Supported (initial_response e) = true
            /\ exists (cmdTS : string) (out : bytes) (err : string),
                 findCmdTailscale e = Ok cmdTS
                 /\ exec_Output e cmdTS ["version"; "--json"] = Ok out
                 /\ json_Unmarshal_Long e out = Ok (version_Long e)
                 /\ exec_Start e cmdTS ["update"; "--yes"] = Some err).
Proof.
  intros Hm. rewrite handleC2NUpdate_eq, Hm. simpl.
  exists (fst (update_post e (initial_response e))).
  split; [reflexivity|].
  exact (update_post_diagnosis (initial_response e) eq_refl).
Qed.

End Diagnosis.

(** On a host with remote update disabled and no updater, the reply
    says "not enabled". *)
Lemma update_error_diagnosis_witness :
  let r := Sample.request "POST" "/update" [] in
  Http.Method r = "POST"
  /\ exists res : Ipnlocal.C2NUpdateResponse,
       fst (Ipnlocal.handleC2NUpdate Hosts.disabled Http.new_writer r)
       = Ipnlocal.writeJSON (Ipnlocal.EncUpdate res) Http.new_writer
       /\ Ipnlocal.Err res = "not enabled".
Proof.
  intros r. split; [reflexivity|].
  destruct (update_error_diagnosis Hosts.disabled Http.new_writer r eq_refl)
    as (res & Hw & Hdis & _).
  exists res. split; [exact Hw|]. apply Hdis. reflexivity.
Defined.

(** ** Distinct purposes render differently *)

Section StringFacts.
Import Go Magicsock.

Lemma length_append (x s : string) :
  String.length (x +:+ s) = (String.length x + String.length s)%nat.
Proof. induction x as [|c x IH]; simpl; [reflexivity|]. rewrite IH. lia. Qed.

Lemma append_inj_r (s x y : string) : x +:+ s = y +:+ s -> x = y.
Proof.
  revert y. induction x as [|c x IH]; intros [|d y] H.
  - reflexivity.
  - apply (f_equal String.length) in H.
    rewrite !length_append in H. simpl in H. lia.
  - apply (f_equal String.length) in H.
    rewrite !length_append in H. simpl in H. lia.
  - change (String c (x +:+ s) = String d (y +:+ s)) in H.
    injection H as -> H. rewrite (IH y H). reflexivity.
Qed.

(** The decimal rendering of an integer determines it. *)
Lemma FormatInt10_inj (i j : Z) : FormatInt10 i = FormatInt10 j -> i = j.
Proof.
  unfold FormatInt10. intros H. apply DecimalZ.to_int_inj.
  assert (Hparse : forall z,
             NilZero.int_of_string (NilZero.string_of_int (Z.to_int z))
             = Some (Z.to_int z)).
  { intros z. apply NilZero.isi; destruct z; simpl; intros [= Hnil];
      exact (DecimalPos.Unsigned.to_uint_nonnil _ Hnil). }
  pose proof (Hparse i) as Hi. rewrite H, Hparse in Hi.
  injection Hi as Hi. symmetry. exact Hi.
Qed.

Lemma fallback_inj (i j : Z) :
  "discoPingPurpose(" +:+ FormatInt10 i +:+ ")"
  = "discoPingPurpose(" +:+ FormatInt10 j +:+ ")" ->
  i = j.
Proof.
  intros H. apply String.app_inj in H. apply append_inj_r in H.
  exact (FormatInt10_inj i j H).
Qed.

Lemma String_cases (i : Z) :
  is_int i ->
  (0 <= i < 3
   /\ (i = 0 /\ discoPingPurpose_String i init = (Some "Discovery", init)
       \/ i = 1 /\ discoPingPurpose_String i init = (Some "Heartbeat", init)
       \/ i = 2 /\ discoPingPurpose_String i init = (Some "CLI", init)))
  \/ ((i < 0 \/ 3 <= i)
      /\ discoPingPurpose_String i init
         = (Some ("discoPingPurpose(" +:+ FormatInt10 i +:+ ")"), init)).
Proof.
  intros Hint.
  destruct (Z_lt_ge_dec i 0) as [Hneg|Hnn];
    [right; split; [lia|]; rewrite String_fallback, int64_id by (lia || easy);
     reflexivity|].
  destruct (Z_lt_ge_dec i 3) as [Hlt|Hge];
    [|right; split; [lia|]; rewrite String_fallback, int64_id by (lia || easy);
      reflexivity].
  left. split; [lia|].
  destruct (guard_cases i) as [-> | [-> | ->]]; [lia| | |];
    [left|right; left|right; right]; split; reflexivity.
Qed.

(** X10: [String] is injective on the values of the purpose type: two
    different values, valid or not, never have the same rendering. *)
Theorem String_injective (i j : Z) :
  is_int i -> is_int j -> i <> j ->
  fst (discoPingPurpose_String i init) <> fst (discoPingPurpose_String j init).
Proof.
  intros Hi Hj Hne Heq. apply Hne.
  destruct (String_cases i Hi)
    as [(_ & [(-> & Ei) | [(-> & Ei) | (-> & Ei)]]) | (_ & Ei)];
    destruct (String_cases j Hj)
      as [(_ & [(-> & Ej) | [(-> & Ej) | (-> & Ej)]]) | (_ & Ej)];
    try reflexivity; rewrite Ei, Ej in Heq; cbn [fst] in Heq;
    try (simpl in Heq; discriminate Heq).
  assert (Hs : "discoPingPurpose(" +:+ FormatInt10 i +:+ ")"
               = "discoPingPurpose(" +:+ FormatInt10 j +:+ ")")
    by congruence.
  exact (fallback_inj i j Hs).
Qed.

(** X11: in any state of the index table, [String] panics exactly when
    the purpose is one of 0, 1, 2 and the two table entries it reads are
    not an ordered pair within the 21 bytes of the name string; outside
    the guard it never panics, whatever the table holds. *)
Theorem String_panics_iff (i : Z) (g : Globals) :
  fst (discoPingPurpose_String i g) = None
  <-> 0 <= i < 3
      /\ ~ exists lo hi : Z,
             index (_discoPingPurpose_index g) i = Some lo
             /\ index (_discoPingPurpose_index g) (i + 1) = Some hi
             /\ 0 <= lo <= hi /\ hi <= 21.
Proof.
  unfold discoPingPurpose_String, len_index.
  destruct ((i <? 0) || (i >=? 4 - 1)) eqn:Hguard.
  - apply orb_true_iff in Hguard. rewrite Z.ltb_lt, Z.geb_le in Hguard.
    simpl. split; [discriminate|lia].
  - apply orb_false_iff in Hguard. rewrite Z.ltb_ge in Hguard.
    destruct Hguard as [Hge Hlt]. rewrite Z.geb_leb in Hlt.
    apply Z.leb_gt in Hlt.
    unfold mbind, M_bind, read, check.
    destruct (index (_discoPingPurpose_index g) i) as [lo|];
      [|split; [intros _; split; [lia|]; intros (? & ? & H & _);
                discriminate H
               |reflexivity]].
    destruct (index (_discoPingPurpose_index g) (i + 1)) as [hi|];
      [|split; [intros _; split; [lia|]; intros (? & ? & _ & H & _);
                discriminate H
               |reflexivity]].
    unfold slice. change (len_string _discoPingPurpose_name) with 21.
    destruct ((0 <=? lo) && (lo <=? hi) && (hi <=? 21)) eqn:Hin; simpl.
    + apply andb_true_iff in Hin. destruct Hin as [Hin H3].
      apply andb_true_iff in Hin. destruct Hin as [H1 H2].
      apply Z.leb_le in H1, H2, H3.
      split; [discriminate|]. intros [_ Hno]. exfalso. apply Hno.
      exists lo, hi. repeat split; assumption.
    + split; [|reflexivity]. intros _. split; [lia|].
      intros (lo' & hi' & [= <-] & [= <-] & [H1 H2] & H3).
      apply Z.leb_le in H1, H2, H3. rewrite H1, H2, H3 in Hin.
      discriminate Hin.
Qed.

End StringFacts.

(** The last valid purpose and the first value past it. *)
Lemma String_injective_witness :
  Go.is_int 2 /\ Go.is_int 3 /\ 2 <> 3
  /\ fst (Magicsock.discoPingPurpose_String 2 Magicsock.init)
     <> fst (Magicsock.discoPingPurpose_String 3 Magicsock.init).
Proof.
  assert (H2 : Go.is_int 2) by (unfold Go.is_int; lia).
  assert (H3 : Go.is_int 3) by (unfold Go.is_int; lia).
  assert (Hne : 2 <> 3) by lia.
  split; [exact H2|]. split; [exact H3|]. split; [exact Hne|].
  exact (String_injective 2 3 H2 H3 Hne).
Defined.
